(** * homelab_ops: backup flows and ownership fix-up

    A shallow embedding of the three Prefect flows of the repository

      - [jobs/prefect/flows/backup_generic_dir.py]
      - [jobs/prefect/flows/backup_homeassistant.py]
      - [jobs/prefect/flows/permission_fixup.py]

    the properties of them that the specification states, and further
    properties of the tasks and of the flows that call them.

    Conventions.
      - A Python [str] is a list of Unicode code points ([N]).  String
        literals of the source are written [py "..."].
      - Timestamps ([time.time()], [st_mtime]) are exact rationals, in
        seconds since the Unix epoch; the rounding of binary floating point
        is not part of the model.
      - The file system, the clock and the external [tar] process are the
        environment.  They are explicit state, threaded through a small
        state-and-exception monad together with a trace of the system
        calls the program issued. *)

From Stdlib Require Import ZArith NArith QArith Qround String Ascii List Lia.
From stdpp Require Import base tactics option list numbers countable gmap sorting lexico.

Set Default Proof Using "Type".

(* ===================================================================== *)
(** * Python strings *)
(* ===================================================================== *)

Abbreviation char := N (only parsing).
Abbreviation str := (list N) (only parsing).

(** A literal of the source, as a list of code points. *)
Fixpoint py (s : string) : str :=
  match s with
  | EmptyString => []
  | String a s' => N_of_ascii a :: py s'
  end.
Arguments py s%_string.

Definition is_ascii (c : char) : Prop := (c < 128)%N.

(** [str.isspace] for one code point, CPython's table: the ASCII controls
    09-0D and 1C-1F, the space, and the Unicode separators. *)
Definition isspace (c : char) : bool :=
  ((9 <=? c) && (c <=? 13) || (28 <=? c) && (c <=? 32)
   || (c =? 133) || (c =? 160) || (c =? 5760)
   || (8192 <=? c) && (c <=? 8202)
   || (c =? 8232) || (c =? 8233) || (c =? 8239) || (c =? 8287)
   || (c =? 12288))%N.

(** Removal of a leading, and of a trailing, run of characters. *)
Fixpoint lstrip (p : char → bool) (s : str) : str :=
  match s with
  | [] => []
  | c :: s' => if p c then lstrip p s' else s
  end.

Fixpoint rstrip (p : char → bool) (s : str) : str :=
  match s with
  | [] => []
  | c :: s' =>
      match rstrip p s' with
      | [] => if p c then [] else [c]
      | r => c :: r
      end
  end.

Definition strip_with (p : char → bool) (s : str) : str := rstrip p (lstrip p s).

(** [s.strip()] *)
Definition str_strip (s : str) : str := strip_with isspace s.

Definition mem_char (chars : str) (c : char) : bool := bool_decide (c ∈ chars).

(** [s.strip(chars)] *)
Definition str_strip_chars (chars s : str) : str := strip_with (mem_char chars) s.

(** [s.split(sep)] for a separator of one character.  The result is never
    empty: [str_split sep [] = [[]]]. *)
Fixpoint str_split (sep : char) (s : str) : list str :=
  match s with
  | [] => [[]]
  | c :: s' =>
      if (c =? sep)%N then [] :: str_split sep s'
      else match str_split sep s' with
           | h :: t => (c :: h) :: t
           | [] => [[c]]
           end
  end.

(** [sep.join(parts)] *)
Fixpoint str_join (sep : str) (parts : list str) : str :=
  match parts with
  | [] => []
  | [x] => x
  | x :: rest => x ++ sep ++ str_join sep rest
  end.

(** [str.lower] is not a map on characters (the Greek final sigma depends
    on its context, one character can lower to two) and its table belongs
    to the interpreter.  It is an interface here; what the program relies
    on is its behaviour on ASCII text. *)
Definition ascii_lower (c : char) : char :=
  if ((65 <=? c) && (c <=? 90))%N then (c + 32)%N else c.

Class CaseMapping := {
  str_lower : str → str;
  str_lower_ascii : ∀ s, Forall is_ascii s → str_lower s = ascii_lower <$> s
}.

(** The case mapping that lowers the ASCII letters and nothing else. *)
#[refine] Instance ascii_case_mapping : CaseMapping := {|
  str_lower := fmap ascii_lower
|}.
Proof. reflexivity. Defined.

(** ** Regular expressions of the source

    Both patterns of [_slugify] are a character class under a repetition
    with a lower bound: [[^a-z0-9._-]+] and [-{2,}].  [re.sub] replaces,
    from left to right, every maximal run of at least [n] characters of
    the class by [repl]; a shorter run is no match and is copied.  [run]
    is the run read so far. *)
Definition flush_run (n : nat) (repl run : str) : str :=
  match run with
  | [] => []
  | _ => if decide (n ≤ length run) then repl else run
  end.

Fixpoint re_sub_run (p : char → bool) (n : nat) (repl run s : str) : str :=
  match s with
  | [] => flush_run n repl run
  | c :: s' =>
      if p c then re_sub_run p n repl (run ++ [c]) s'
      else flush_run n repl run ++ c :: re_sub_run p n repl [] s'
  end.

Definition re_sub_class (p : char → bool) (n : nat) (repl s : str) : str :=
  re_sub_run p n repl [] s.

(** ** [fnmatch] as [pathlib] uses it on one path component (POSIX, case
    sensitive): [*] is any run of characters, also an empty one and also
    a leading dot; [?] is one character; every other character is itself.
    Bracket expressions are not modelled; no pattern of the program has a
    bracket (see [slugify_no_wildcard]). *)
Fixpoint fnmatch (pat name : str) : bool :=
  match pat with
  | [] => bool_decide (name = [])
  | c :: pat' =>
      if (c =? 42)%N then
        (fix star (n : str) : bool :=
           fnmatch pat' n || match n with [] => false | _ :: n' => star n' end) name
      else match name with
           | [] => false
           | x :: name' => ((c =? 63)%N || (c =? x)%N) && fnmatch pat' name'
           end
  end.

(* ===================================================================== *)
(** * [backup_generic_dir.py]: the pure helpers *)
(* ===================================================================== *)

(** The class [[a-z0-9._-]]. *)
Definition slug_char (c : char) : bool :=
  ((97 <=? c) && (c <=? 122) || (48 <=? c) && (c <=? 57)
   || (c =? 46) || (c =? 95) || (c =? 45))%N.

Definition is_dash (c : char) : bool := (c =? 45)%N.

Section Slugify.
Context `{CaseMapping}.

Definition _slugify (name : str) : str :=
  let name := str_lower (str_strip name) in
  let name := re_sub_class (λ c, negb (slug_char c)) 1 (py "-") name in
  let name := str_strip_chars (py "-") (re_sub_class is_dash 2 (py "-") name) in
  match name with
  | [] => py "backup"
  | _ => name
  end.

End Slugify.

Definition _parse_exclude_dirs (exclude_dirs : option str) : list str :=
  match exclude_dirs with
  | None | Some [] => []
  | Some s =>
      let parts := (λ p, str_strip_chars (py "/") (str_strip p)) <$> str_split 44 s in
      filter (λ p, p ≠ []) parts
  end.

(* ===================================================================== *)
(** * Exceptions and the monad of the flows *)
(* ===================================================================== *)

Inductive exn :=
  | Exception
  | OSError
  | FileNotFoundError
  | PermissionError
  | SubprocessError
  | CalledProcessError
  | ArithmeticError
  | OverflowError
  | TypeError
  | ValueError.

Global Instance exn_eq_dec : EqDecision exn.
Proof. solve_decision. Defined.

(** The direct base class. *)
Definition exn_base (e : exn) : option exn :=
  match e with
  | Exception => None
  | FileNotFoundError | PermissionError => Some OSError
  | CalledProcessError => Some SubprocessError
  | OverflowError => Some ArithmeticError
  | OSError | SubprocessError | ArithmeticError | TypeError | ValueError =>
      Some Exception
  end.

(** [isinstance e cls], the test of an [except cls:] clause.  The
    hierarchy is two levels deep. *)
Definition isinstance (e cls : exn) : bool :=
  bool_decide (e = cls)
  || match exn_base e with
     | None => false
     | Some b =>
         bool_decide (b = cls)
         || match exn_base b with
            | None => false
            | Some b' => bool_decide (b' = cls)
            end
     end.

Inductive result (A : Type) :=
  | Ok (a : A)
  | Raise (e : exn).
Arguments Ok {A} a.
Arguments Raise {A} e.

(** A computation over a state [S] that returns or raises.  The state
    survives an exception: what was deleted stays deleted. *)
Definition M (S A : Type) : Type := S → result A * S.

Definition ret {S A} (a : A) : M S A := λ s, (Ok a, s).
Definition raise {S A} (e : exn) : M S A := λ s, (Raise e, s).
Definition bind {S A B} (m : M S A) (k : A → M S B) : M S B :=
  λ s, match m s with
       | (Ok a, s') => k a s'
       | (Raise e, s') => (Raise e, s')
       end.
(** [try: m], with the outcome handed to the [except] clauses. *)
Definition try {S A} (m : M S A) : M S (result A) :=
  λ s, let '(r, s') := m s in (Ok r, s').
Definition gets {S A} (f : S → A) : M S A := λ s, (Ok (f s), s).
Definition modify {S} (f : S → S) : M S unit := λ s, (Ok tt, f s).

Notation "x <- m ;; k" := (bind m (λ x, k))
  (at level 100, m at next level, right associativity,
   format "'[' x  <-  m  ;;  '/' k ']'").
Notation "m ;;; k" := (bind m (λ _, k))
  (at level 100, right associativity).

(* ===================================================================== *)
(** * [pathlib.Path] (POSIX) *)
(* ===================================================================== *)

Record Path := mkPath { absolute : bool; parts : list str }.

Global Instance Path_eq_dec : EqDecision Path.
Proof. solve_decision. Defined.

Global Instance Path_countable : Countable Path :=
  inj_countable' (λ p, (absolute p, parts p)) (λ t, mkPath t.1 t.2)
    (λ p, match p with mkPath _ _ => eq_refl end).

(** [Path(s)]: empty components and [.] are dropped. *)
Definition Path_of_str (s : str) : Path :=
  {| absolute := match s with c :: _ => (c =? 47)%N | [] => false end;
     parts := filter (λ c, c ≠ [] ∧ c ≠ py ".") (str_split 47 s) |}.

(** [p / s] *)
Definition joinpath (p : Path) (s : str) : Path :=
  let q := Path_of_str s in
  if absolute q then q
  else {| absolute := absolute p; parts := parts p ++ parts q |}.

(** A directory entry, as [glob] yields it. *)
Definition path_child (dir : Path) (name : str) : Path :=
  {| absolute := absolute dir; parts := parts dir ++ [name] |}.

(** [p.name] and [p.parent] *)
Definition path_name (p : Path) : str := List.last (parts p) [].
Definition path_parent (p : Path) : Path :=
  {| absolute := absolute p; parts := removelast (parts p) |}.

(** [str(p)] *)
Definition path_str (p : Path) : str :=
  if absolute p then py "/" ++ str_join (py "/") (parts p)
  else match parts p with
       | [] => py "."
       | _ => str_join (py "/") (parts p)
       end.

(** [sorted] on paths compares their parts, code point by code point. *)
Definition path_le (p q : Path) : Prop := ¬ lexico (parts q) (parts p).

Global Instance path_le_dec p q : Decision (path_le p q).
Proof. unfold path_le. apply _. Defined.

Definition sorted (ps : list Path) : list Path := merge_sort path_le ps.

(* ===================================================================== *)
(** * [datetime] *)
(* ===================================================================== *)

Inductive timezone := utc.

(** A datetime is a proleptic Gregorian day number (1 is 0001-01-01), the
    microsecond of that day, and [tzinfo]: [None] for a naive value. *)
Record datetime := mkDatetime {
  ordinal : Z;
  usec : Z;
  tzinfo : option timezone
}.

Definition MINORDINAL : Z := 1.
Definition MAXORDINAL : Z := 3652059.
Definition EPOCH_ORDINAL : Z := 719163.
Definition USEC_PER_DAY : Z := 86400000000.

Definition days_before_month (m : Z) : Z :=
  nth (Z.to_nat m) [0; 0; 31; 59; 90; 120; 151; 181; 212; 243; 273; 304; 334]%Z 0%Z.
Definition days_in_month (m : Z) : Z :=
  nth (Z.to_nat m) [0; 31; 28; 31; 30; 31; 30; 31; 31; 30; 31; 30; 31]%Z 0%Z.

(** [_ord2ymd] of the standard library. *)
Definition ord2ymd (n : Z) : Z * Z * Z :=
  (let n := n - 1 in
   let n400 := n / 146097 in let n := n mod 146097 in
   let year := n400 * 400 + 1 in
   let n100 := n / 36524 in let n := n mod 36524 in
   let n4 := n / 1461 in let n := n mod 1461 in
   let n1 := n / 365 in let n := n mod 365 in
   let year := year + n100 * 100 + n4 * 4 + n1 in
   if (n1 =? 4) || (n100 =? 4) then (year - 1, 12, 31)
   else
     let leapyear := (n1 =? 3) && (negb (n4 =? 24) || (n100 =? 3)) in
     let month := Z.shiftr (n + 50) 5 in
     let preceding :=
       days_before_month month + (if (2 <? month) && leapyear then 1 else 0) in
     if n <? preceding then
       let month := month - 1 in
       let preceding :=
         preceding
         - (days_in_month month + (if (month =? 2) && leapyear then 1 else 0)) in
       (year, month, n - preceding + 1)
     else (year, month, n - preceding + 1))%Z.

Definition digit (d : Z) : char := Z.to_N (48 + d mod 10).

(** [strftime("%Y-%m-%d")], for the years 1000 to 9999 (for an earlier
    year the width of [%Y] depends on the platform's C library). *)
Definition strftime_ymd (d : datetime) : str :=
  (let '(y, m, dd) := ord2ymd (ordinal d) in
   [digit (y / 1000); digit (y / 100); digit (y / 10); digit y]
   ++ py "-" ++ [digit (m / 10); digit m]
   ++ py "-" ++ [digit (dd / 10); digit dd])%Z.

(** Rounding to the nearest integer, ties to even. *)
Definition round_half_even (q : Q) : Z :=
  let f := Qfloor q in
  match Qcompare (q - inject_Z f) (1 # 2) with
  | Lt => f
  | Gt => (f + 1)%Z
  | Eq => if Z.even f then f else (f + 1)%Z
  end.

(** [datetime.fromtimestamp(t, tz)] in UTC; with [tz = None] this is
    [datetime.utcfromtimestamp(t)].  A timestamp outside the years 1 to
    9999 raises ([ValueError] here; the interpreter may raise
    [OverflowError] or [OSError] instead, which the callers treat alike). *)
Definition fromtimestamp_utc (t : Q) (tz : option timezone) : result datetime :=
  let us := round_half_even (t * inject_Z 1000000) in
  let ord := (EPOCH_ORDINAL + us / USEC_PER_DAY)%Z in
  if bool_decide (MINORDINAL ≤ ord ≤ MAXORDINAL)%Z
  then Ok {| ordinal := ord; usec := (us mod USEC_PER_DAY)%Z; tzinfo := tz |}
  else Raise ValueError.

(** [timedelta(days=n)] *)
Record timedelta := mkTimedelta { td_days : Z }.

Definition timedelta_days (n : Z) : result timedelta :=
  if bool_decide (Z.abs n ≤ 999999999)%Z then Ok (mkTimedelta n)
  else Raise OverflowError.

(** [d - td] *)
Definition datetime_sub (d : datetime) (td : timedelta) : result datetime :=
  let ord := (ordinal d - td_days td)%Z in
  if bool_decide (MINORDINAL ≤ ord ≤ MAXORDINAL)%Z
  then Ok {| ordinal := ord; usec := usec d; tzinfo := tzinfo d |}
  else Raise OverflowError.

(** [a < b].  Two naive values compare as they are, two aware values by
    their UTC instants (the only time zone here is UTC itself); a naive
    and an aware value do not compare. *)
Definition datetime_lt (a b : datetime) : result bool :=
  match tzinfo a, tzinfo b with
  | None, None | Some _, Some _ =>
      Ok (bool_decide (ordinal a < ordinal b
                       ∨ ordinal a = ordinal b ∧ usec a < usec b)%Z)
  | _, _ => Raise TypeError
  end.

(* ===================================================================== *)
(** * The environment of the backup flows *)
(* ===================================================================== *)

(** What [os.stat] reports and the flows read. *)
Record stat_result := mkStat { st_mtime : Q; st_size : Z }.

(** A directory holds regular files, by name.  Subdirectories and links
    inside a destination are not part of the model. *)
Abbreviation directory := (gmap (list N) stat_result).

(** The file-system calls and process executions a flow issues. *)
Inductive syscall :=
  | SysStat (p : Path)
  | SysScandir (p : Path)
  | SysUnlink (p : Path)
  | SysExec (argv : list str).

Record world := mkWorld {
  disk : gmap Path directory;
  clock : Q;
  trace : list syscall
}.

(** The external process: an exit status and what it did to the disk,
    while the clock went on. *)
Class Subprocess :=
  spawn : list str → gmap Path directory * Q → Z * (gmap Path directory * Q).

Definition lift {S A} (r : result A) : M S A :=
  match r with
  | Ok a => ret a
  | Raise e => raise e
  end.

(** The world after one more call. *)
Definition logged (c : syscall) (w : world) : world :=
  mkWorld (disk w) (clock w) (trace w ++ [c]).

Definition log (c : syscall) : M world unit := modify (logged c).

Definition lookup_file (d : gmap Path directory) (p : Path) : option stat_result :=
  d !! path_parent p ≫= λ dir, dir !! path_name p.

Definition remove_file (p : Path) (w : world) : world :=
  mkWorld (alter (delete (path_name p)) (path_parent p) (disk w)) (clock w) (trace w).

(** [p.exists()] *)
Definition path_exists (p : Path) : M world bool :=
  log (SysStat p) ;;;
  gets (λ w, bool_decide (is_Some (disk w !! p) ∨ is_Some (lookup_file (disk w) p))).

(** [p.stat()] *)
Definition path_stat (p : Path) : M world stat_result :=
  log (SysStat p) ;;;
  f <- gets (λ w, lookup_file (disk w) p) ;;
  match f with
  | Some st => ret st
  | None => raise FileNotFoundError
  end.

(** [p.unlink(missing_ok=...)] *)
Definition path_unlink (missing_ok : bool) (p : Path) : M world unit :=
  log (SysUnlink p) ;;;
  f <- gets (λ w, lookup_file (disk w) p) ;;
  match f with
  | Some _ => modify (remove_file p)
  | None => if missing_ok then ret tt else raise FileNotFoundError
  end.

(** [dir.glob(pattern)] for a pattern of one component, in the order the
    directory is read. *)
Definition glob_names (pattern : str) (d : directory) : list str :=
  filter (λ n, Is_true (fnmatch pattern n)) (map_to_list d).*1.

Definition path_glob (dir : Path) (pattern : str) : M world (list Path) :=
  log (SysScandir dir) ;;;
  gets (λ w, match disk w !! dir with
             | Some d => path_child dir <$> glob_names pattern d
             | None => []
             end).

(** [time.time()] *)
Definition time_time : M world Q := gets clock.

(** [datetime.now(tz)]: the clock, to the microsecond. *)
Definition datetime_now (tz : timezone) : M world datetime :=
  t <- gets clock ;; lift (fromtimestamp_utc t (Some tz)).

(** [subprocess.run(argv, check=True)] *)
Definition subprocess_run_check `{Subprocess} (argv : list str) : M world unit :=
  log (SysExec argv) ;;;
  rc <- (λ w, let '(rc, (d, c)) := spawn argv (disk w, clock w) in
              (Ok rc, mkWorld d c (trace w))) ;;
  if (rc =? 0)%Z then ret tt else raise CalledProcessError.

Definition Qltb (a b : Q) : bool := negb (Qle_bool b a).

(* ===================================================================== *)
(** * [backup_generic_dir.py]: the tasks *)
(* ===================================================================== *)

Section GenericDir.
Context `{CaseMapping}.

(** The argument vector of [create_tar]. *)
Definition tar_command (target archive : Path) (excludes : list str) : list str :=
  let cmd := [py "tar"] in
  let cmd :=
    fold_left
      (λ cmd ex, cmd ++ [py "--exclude=./" ++ ex; py "--exclude=./" ++ ex ++ py "/*"])
      excludes cmd in
  cmd ++ [py "-cf"; path_str archive; py "-C"; path_str target; py "."].

Definition create_tar `{Subprocess}
    (target dest : Path) (exclude_dirs : option str) : M world Path :=
  now <- datetime_now utc ;;
  let date := strftime_ymd now in
  let suffix := _slugify (path_name target) in
  let archive := joinpath dest (date ++ py "-" ++ suffix ++ py ".tar") in
  let excludes := _parse_exclude_dirs exclude_dirs in
  subprocess_run_check (tar_command target archive excludes) ;;;
  _ <- path_stat archive ;;
  ret archive.

(** The body of the [for] loop of [prune_old_archives]. *)
Fixpoint prune_archives_loop (cutoff : Q) (ps : list Path) (deleted : Z) : M world Z :=
  match ps with
  | [] => ret deleted
  | p :: ps' =>
      r <- try (path_stat p) ;;
      match r with
      | Raise e =>
          if isinstance e FileNotFoundError
          then prune_archives_loop cutoff ps' deleted
          else raise e
      | Ok st =>
          if Qltb (st_mtime st) cutoff then
            path_unlink true p ;;;
            prune_archives_loop cutoff ps' (deleted + 1)%Z
          else prune_archives_loop cutoff ps' deleted
      end
  end.

Definition prune_pattern (name_hint : str) : str :=
  py "*-" ++ _slugify name_hint ++ py ".tar".

Definition prune_old_archives (dest : Path) (keep_days : Z) (name_hint : str) : M world Z :=
  if (keep_days <? 1)%Z then ret 0%Z
  else
    now <- time_time ;;
    let cutoff := (now - inject_Z (keep_days * 86400))%Q in
    let pattern := prune_pattern name_hint in
    ps <- path_glob dest pattern ;;
    prune_archives_loop cutoff (sorted ps) 0%Z.

End GenericDir.

(* ===================================================================== *)
(** * [backup_homeassistant.py] *)
(* ===================================================================== *)

Definition ha_default_excludes : list str :=
  [py "media"; py "tts"; py "backups"; py "nest";
   py "__pycache__"; py ".cache"; py "deps"; py "node_modules";
   py "*.log"; py "*.log.*"; py "*.tmp"].

Definition ha_excludes (include_db : bool) (extra_excludes : option (list str)) : list str :=
  let excludes := ha_default_excludes in
  let excludes := if include_db then excludes else excludes ++ [py "home-assistant_v2.db"] in
  match extra_excludes with
  | None | Some [] => excludes
  | Some extra => excludes ++ extra
  end.

Definition ha_tar_command (ha_config_dir archive : Path) (excludes : list str) : list str :=
  let cmd := [py "tar"; py "-cf"; path_str archive] in
  let cmd := fold_left (λ cmd ex, cmd ++ [py "--exclude"; ex]) excludes cmd in
  cmd ++ [py "-C"; path_str ha_config_dir; py "."].

Definition backup_homeassistant_config `{Subprocess}
    (ha_config_dir dest_dir : Path) (include_db : bool)
    (extra_excludes : option (list str)) : M world Path :=
  ex <- path_exists ha_config_dir ;;
  if negb ex then raise FileNotFoundError
  else
    now <- datetime_now utc ;;
    let date_str := strftime_ymd now in
    let archive := joinpath dest_dir (date_str ++ py "-homeassistant.tar") in
    let excludes := ha_excludes include_db extra_excludes in
    subprocess_run_check (ha_tar_command ha_config_dir archive excludes) ;;;
    _ <- path_stat archive ;;
    ret archive.

(** The [try] block of the loop of [prune_old_backups]. *)
Definition prune_backup_step (cutoff : datetime) (p : Path) (deleted : Z) : M world Z :=
  st <- path_stat p ;;
  mtime <- lift (fromtimestamp_utc (st_mtime st) None) ;;
  old <- lift (datetime_lt mtime cutoff) ;;
  if old : bool then
    path_unlink false p ;;;
    ret (deleted + 1)%Z
  else ret deleted.

Fixpoint prune_backups_loop (cutoff : datetime) (ps : list Path) (deleted : Z) : M world Z :=
  match ps with
  | [] => ret deleted
  | p :: ps' =>
      r <- try (prune_backup_step cutoff p deleted) ;;
      match r with
      | Ok deleted' => prune_backups_loop cutoff ps' deleted'
      | Raise e =>
          if isinstance e Exception
          then prune_backups_loop cutoff ps' deleted
          else raise e
      end
  end.

Definition prune_old_backups (dest_dir : str) (keep_days : Z) : M world Z :=
  let dest := Path_of_str dest_dir in
  ex <- path_exists dest ;;
  if negb ex then ret 0%Z
  else
    now <- datetime_now utc ;;
    td <- lift (timedelta_days keep_days) ;;
    cutoff <- lift (datetime_sub now td) ;;
    ps <- path_glob dest (py "*-homeassistant.tar") ;;
    prune_backups_loop cutoff ps 0%Z.

(* ===================================================================== *)
(** * [permission_fixup.py] *)
(* ===================================================================== *)

(** The operating system as [fix_permissions] sees it: a store of type
    [FS] that can be asked whether a path exists and is a directory, that
    lists the descendants of a path, and on which [chown] succeeds or
    raises.  Nothing is assumed about when [chown] raises what. *)
Class OwnershipOS (FS : Type) := {
  os_exists : Path → FS → bool;
  os_is_dir : Path → FS → bool;
  os_rglob : Path → FS → list Path;
  os_chown : Path → Z → Z → FS → result unit * FS
}.

(** The store, and the [chown] calls issued so far. *)
Record os_state (FS : Type) := mkOs {
  files : FS;
  chown_calls : list (Path * Z * Z)
}.
Arguments mkOs {FS} _ _.
Arguments files {FS} _.
Arguments chown_calls {FS} _.

(** The four counters of the loop. *)
Record counters := mkCounters {
  n_scanned : Z;
  n_changed : Z;
  n_skipped : Z;
  n_errors : Z
}.

(** The summary dict. *)
Record summary := mkSummary {
  sum_root : str;
  sum_uid : Z;
  sum_gid : Z;
  sum_dry_run : bool;
  sum_include_dirs : bool;
  scanned : Z;
  changed : Z;
  skipped : Z;
  errors : Z
}.

Definition DEFAULT_UID : Z := 1000.
Definition DEFAULT_GID : Z := 1000.

Section PermissionFixup.
Context {FS : Type} `{OwnershipOS FS}.

Definition chown (path : Path) (uid gid : Z) : M (os_state FS) unit :=
  λ s, let '(r, fs') := os_chown path uid gid (files s) in
       (r, mkOs fs' (chown_calls s ++ [(path, uid, gid)])).

Definition bump_scanned (c : counters) : counters :=
  mkCounters (n_scanned c + 1) (n_changed c) (n_skipped c) (n_errors c).
Definition bump_changed (c : counters) : counters :=
  mkCounters (n_scanned c) (n_changed c + 1) (n_skipped c) (n_errors c).
Definition bump_skipped (c : counters) : counters :=
  mkCounters (n_scanned c) (n_changed c) (n_skipped c + 1) (n_errors c).
Definition bump_errors (c : counters) : counters :=
  mkCounters (n_scanned c) (n_changed c) (n_skipped c) (n_errors c + 1).

(** The [for path in targets] loop. *)
Fixpoint fix_loop (uid gid : Z) (dry_run include_dirs : bool)
    (targets : list Path) (c : counters) : M (os_state FS) counters :=
  match targets with
  | [] => ret c
  | path :: rest =>
      let c := bump_scanned c in
      d <- gets (λ s, os_is_dir path (files s)) ;;
      if d && negb include_dirs then
        fix_loop uid gid dry_run include_dirs rest (bump_skipped c)
      else
        r <- try (if dry_run then ret tt else chown path uid gid) ;;
        match r with
        | Ok _ => fix_loop uid gid dry_run include_dirs rest (bump_changed c)
        | Raise e =>
            if isinstance e FileNotFoundError then
              fix_loop uid gid dry_run include_dirs rest (bump_skipped c)
            else if isinstance e PermissionError then
              fix_loop uid gid dry_run include_dirs rest (bump_errors c)
            else if isinstance e OSError then
              fix_loop uid gid dry_run include_dirs rest (bump_errors c)
            else raise e
        end
  end.

Definition fix_permissions (root : str) (uid gid : Z) (dry_run include_dirs : bool)
    : M (os_state FS) summary :=
  let root_path := Path_of_str root in
  ex <- gets (λ s, os_exists root_path (files s)) ;;
  if negb ex then raise FileNotFoundError
  else
    let c := mkCounters 0 0 0 0 in
    let targets := if include_dirs then [root_path] else [] in
    found <- gets (λ s, os_rglob root_path (files s)) ;;
    let targets := targets ++ found in
    c <- fix_loop uid gid dry_run include_dirs targets c ;;
    ret {| sum_root := path_str root_path;
           sum_uid := uid;
           sum_gid := gid;
           sum_dry_run := dry_run;
           sum_include_dirs := include_dirs;
           scanned := n_scanned c;
           changed := n_changed c;
           skipped := n_skipped c;
           errors := n_errors c |}.

(** The paths of the traversal that the directory filter lets through. *)
Definition eligible (include_dirs : bool) (fs : FS) (targets : list Path) : list Path :=
  filter (λ p, Is_true (negb (os_is_dir p fs && negb include_dirs))) targets.

Definition traversal (root : str) (include_dirs : bool) (fs : FS) : list Path :=
  (if include_dirs then [Path_of_str root] else []) ++ os_rglob (Path_of_str root) fs.

End PermissionFixup.

(* ===================================================================== *)
(** * Vocabulary of the statements *)
(* ===================================================================== *)

(** A string that does not start with a character of [p]. *)
Definition head_kept (p : char → bool) (s : str) : Prop :=
  match s with
  | [] => True
  | c :: _ => p c = false
  end.

(** No two dashes in a row. *)
Fixpoint no_double_dash (s : str) : bool :=
  match s with
  | c1 :: ((c2 :: _) as t) => negb (is_dash c1 && is_dash c2) && no_double_dash t
  | _ => true
  end.

(** The value of [name] in [_slugify] before the fallback of its last
    line. *)
Definition slug_body `{CaseMapping} (name : str) : str :=
  str_strip_chars (py "-")
    (re_sub_class is_dash 2 (py "-")
       (re_sub_class (λ c, negb (slug_char c)) 1 (py "-")
          (str_lower (str_strip name)))).

(** What is under [name] in a directory [d] once every file that [sel]
    selects and that is older than [cutoff] is gone. *)
Definition pruned (sel : str → bool) (cutoff : Q) (d : directory) (name : str)
    : option stat_result :=
  match d !! name with
  | Some st => if sel name && Qltb (st_mtime st) cutoff then None else Some st
  | None => None
  end.

(** The cutoff of [prune_old_backups] at clock [t]:
    [datetime.now(timezone.utc) - timedelta(days=keep_days)]. *)
Definition backup_cutoff (t : Q) (keep_days : Z) : result datetime :=
  match fromtimestamp_utc t (Some utc) with
  | Raise e => Raise e
  | Ok now =>
      match timedelta_days keep_days with
      | Raise e => Raise e
      | Ok td => datetime_sub now td
      end
  end.

(** The UTC calendar date at clock [t]. *)
Definition utc_date (t : Q) : option (Z * Z * Z) :=
  match fromtimestamp_utc t (Some utc) with
  | Ok d => Some (ord2ymd (ordinal d))
  | Raise _ => None
  end.

(** The exclusion arguments of the two builders, for one entry. *)
Definition anchored_excludes (ex : str) : list str :=
  [py "--exclude=./" ++ ex; py "--exclude=./" ++ ex ++ py "/*"].
Definition plain_excludes (ex : str) : list str :=
  [py "--exclude"; ex].

(** What [subprocess.run(argv, check=True)] leaves behind: the exit
    status and the world after the process. *)
Definition after_exec `{Subprocess} (argv : list str) (w : world) : Z * world :=
  let '(rc, (d, c)) := spawn argv (disk w, clock w) in
  (rc, mkWorld d c (trace w ++ [SysExec argv])).

(** The invariant of the loop of [fix_permissions]: what was scanned is
    accounted for, and no counter is negative. *)
Definition balanced (c : counters) : Prop :=
  (n_scanned c = n_changed c + n_skipped c + n_errors c
   ∧ 0 ≤ n_changed c ∧ 0 ≤ n_skipped c ∧ 0 ≤ n_errors c)%Z.

(* ===================================================================== *)
(** * A small machine to run the flows on *)
(* ===================================================================== *)

(** A [tar] that writes a 10 KiB archive at the path after [-cf], stamped
    with the clock, takes three seconds, and exits with 0; without [-cf]
    it exits with 2. *)
Fixpoint archive_operand (argv : list str) : option str :=
  match argv with
  | [] => None
  | a :: rest =>
      if bool_decide (a = py "-cf") then head rest else archive_operand rest
  end.

Definition toy_tar : Subprocess := λ argv '(d, t),
  match archive_operand argv with
  | None => (2%Z, (d, t))
  | Some a =>
      let p := Path_of_str a in
      let dir := default ∅ (d !! path_parent p) in
      let dir := <[path_name p := mkStat t 10240]> dir in
      (0%Z, (<[path_parent p := dir]> d, (t + 3)%Q))
  end.

(** A store of inodes.  [chown] on a missing path is [ENOENT], on an
    immutable inode [EPERM]; an id outside [-1 .. 2^32 - 1] does not
    convert, and [-1] leaves the id as it is. *)
Record inode := mkInode {
  is_directory : bool;
  owner : Z;
  group : Z;
  immutable : bool
}.

Definition toy_chown (p : Path) (uid gid : Z) (fs : gmap Path inode)
    : result unit * gmap Path inode :=
  if bool_decide (-1 ≤ uid < 2 ^ 32 ∧ -1 ≤ gid < 2 ^ 32)%Z then
    match fs !! p with
    | None => (Raise FileNotFoundError, fs)
    | Some i =>
        if immutable i then (Raise PermissionError, fs)
        else
          let i' := mkInode (is_directory i)
                      (if (uid =? -1)%Z then owner i else uid)
                      (if (gid =? -1)%Z then group i else gid)
                      (immutable i) in
          (Ok tt, <[p := i']> fs)
    end
  else (Raise OverflowError, fs).

Global Instance toy_os : OwnershipOS (gmap Path inode) := {|
  os_exists p fs := bool_decide (is_Some (fs !! p));
  os_is_dir p fs := from_option is_directory false (fs !! p);
  os_rglob root fs :=
    filter (λ p, parts root `prefix_of` parts p ∧ parts root ≠ parts p)
      (map_to_list fs).*1;
  os_chown := toy_chown
|}.

(** A destination shared by three jobs, at noon of 2024-03-05 UTC: the
    archives of [foo] of 2020 and of 2099, one of [bar] and one of Home
    Assistant of 2020, the configuration directory of Home Assistant and
    the target [static_server]. *)
Definition backups_dir : Path := Path_of_str (py "/mnt/backups").
Definition ha_config : Path := Path_of_str (py "/srv/config/homeassistant").
Definition static_server : Path := Path_of_str (py "/srv/homelab/state/static_server").

Definition new_year_2020 : Q := 1577836800 # 1.
Definition new_year_2099 : Q := 4070908800 # 1.
Definition noon_2024_03_05 : Q := 1709640000 # 1.

Definition example_backups : directory :=
  <[py "2020-01-01-foo.tar" := mkStat new_year_2020 10240]>
  (<[py "2099-01-01-foo.tar" := mkStat new_year_2099 10240]>
  (<[py "2020-01-01-bar.tar" := mkStat new_year_2020 10240]>
  (<[py "2020-01-01-homeassistant.tar" := mkStat new_year_2020 10240]> ∅))).

Definition example_world : world :=
  {| disk := <[backups_dir := example_backups]>
             (<[ha_config := ∅]> (<[static_server := ∅]> ∅));
     clock := noon_2024_03_05;
     trace := [] |}.

(** A tree under [/srv] owned by root, with one immutable file. *)
Definition example_store : gmap Path inode :=
  <[Path_of_str (py "/srv") := mkInode true 0 0 false]>
  (<[Path_of_str (py "/srv/a") := mkInode false 0 0 false]>
  (<[Path_of_str (py "/srv/d") := mkInode true 0 0 false]>
  (<[Path_of_str (py "/srv/d/x") := mkInode false 0 0 true]>
  (<[Path_of_str (py "/other") := mkInode false 0 0 false]> ∅)))).

(* ===================================================================== *)
(** * The flows *)
(* ===================================================================== *)

(** The two tasks that create directories, [validate_paths] of
    [backup_generic_dir.py] and [ensure_dest_dir] of
    [backup_homeassistant.py], need calls that this environment does not
    have ([mkdir], [write_text], [resolve]).  The flows are stated over
    any behaviour of them: a computation over the world that returns or
    raises. *)
Class Provisioning := {
  validate_paths : str → str → M world (Path * Path);
  ensure_dest_dir : Path → M world unit
}.

Section Flows.
Context `{CaseMapping} `{Subprocess} `{Provisioning}.

Definition backup_generic_dir
    (target_dir dest_dir : str) (exclude_dirs : option str) (keep_days : Z)
    : M world str :=
  td <- validate_paths target_dir dest_dir ;;
  let '(target, dest) := td in
  archive <- create_tar target dest exclude_dirs ;;
  _ <- prune_old_archives dest keep_days (path_name target) ;;
  ret (path_str archive).

Definition backup_homeassistant
    (ha_config_dir dest_dir : str) (include_db : bool) (keep_days : Z)
    : M world str :=
  let dest := Path_of_str dest_dir in
  ensure_dest_dir dest ;;;
  archive <- backup_homeassistant_config (Path_of_str ha_config_dir) dest include_db None ;;
  _ <- prune_old_backups dest_dir keep_days ;;
  ret (path_str archive).

End Flows.

Definition permission_fixup {FS : Type} `{OwnershipOS FS}
    (root : str) (uid gid : Z) (dry_run include_dirs : bool) : M (os_state FS) summary :=
  fix_permissions root uid gid dry_run include_dirs.

(** The strings that [_slugify] can return: not empty, of the class, no
    two dashes in a row, no dash at either end. *)
Definition is_slug (t : str) : Prop :=
  t ≠ []
  ∧ Forall (λ c, slug_char c = true) t
  ∧ no_double_dash t = true
  ∧ head t ≠ Some 45%N
  ∧ last t ≠ Some 45%N.

(** A machine on which the directories are in place: validation has
    nothing to create and hands the paths on. *)
Definition ready_machine : Provisioning := {|
  validate_paths target_dir dest_dir := ret (Path_of_str target_dir, Path_of_str dest_dir);
  ensure_dest_dir dest := ret tt
|}.

(* ===================================================================== *)
(** * Strings: stripping *)
(* ===================================================================== *)

Section Strip.
Variable p : N → bool.

Lemma lstrip_Forall (P : N → Prop) s : Forall P s → Forall P (lstrip p s).
Proof.
  induction 1 as [|c s Hc Hs IH]; simpl; [constructor|].
  destruct (p c); [exact IH | by constructor].
Qed.

Lemma rstrip_Forall (P : N → Prop) s : Forall P s → Forall P (rstrip p s).
Proof.
  induction 1 as [|c s Hc Hs IH]; simpl; [constructor|].
  destruct (rstrip p s) as [|x r].
  - destruct (p c); repeat constructor; done.
  - by constructor.
Qed.

Lemma strip_with_Forall (P : N → Prop) s : Forall P s → Forall P (strip_with p s).
Proof. intros. by apply rstrip_Forall, lstrip_Forall. Qed.

Lemma lstrip_none s : Forall (λ c, p c = false) s → lstrip p s = s.
Proof. destruct 1 as [|c s Hc _]; simpl; [done | by rewrite Hc]. Qed.

Lemma rstrip_none s : Forall (λ c, p c = false) s → rstrip p s = s.
Proof.
  induction 1 as [|c s Hc Hs IH]; simpl; [done|].
  rewrite IH, Hc. by destruct s.
Qed.

Lemma strip_with_none s : Forall (λ c, p c = false) s → strip_with p s = s.
Proof. intros Hs. unfold strip_with. by rewrite lstrip_none, rstrip_none. Qed.


(** What is left after [lstrip] does not start with a stripped character,
    and what is left after [rstrip] starts as before. *)
Lemma lstrip_head_kept s : head_kept p (lstrip p s).
Proof.
  induction s as [|c s IH]; simpl; [done|].
  destruct (p c) eqn:Hc; [exact IH | exact Hc].
Qed.

Lemma rstrip_head s : rstrip p s = [] ∨ head (rstrip p s) = head s.
Proof.
  destruct s as [|c s]; simpl; [by left|].
  destruct (rstrip p s); [destruct (p c)|]; auto.
Qed.

Lemma rstrip_head_kept s : head_kept p s → head_kept p (rstrip p s).
Proof.
  destruct s as [|c s]; simpl; [done|]. intros Hc.
  destruct (rstrip p s); [by rewrite Hc|done].
Qed.

Lemma lstrip_fixed s : head_kept p s → lstrip p s = s.
Proof. destruct s as [|c s]; simpl; [done|]. by intros ->. Qed.

Lemma rstrip_idemp s : rstrip p (rstrip p s) = rstrip p s.
Proof.
  induction s as [|c s IH]; simpl; [done|].
  destruct (rstrip p s) as [|x r] eqn:Hr.
  - destruct (p c) eqn:Hc; simpl; [done | by rewrite Hc].
  - change (rstrip p (c :: x :: r)) with
      (match rstrip p (x :: r) with [] => if p c then [] else [c] | r' => c :: r' end).
    by rewrite IH.
Qed.

Lemma strip_with_idemp s : strip_with p (strip_with p s) = strip_with p s.
Proof.
  unfold strip_with.
  rewrite (lstrip_fixed (rstrip p (lstrip p s))).
  - apply rstrip_idemp.
  - apply rstrip_head_kept, lstrip_head_kept.
Qed.

End Strip.

(* ===================================================================== *)
(** * Strings: the two substitutions of [_slugify] *)
(* ===================================================================== *)

Section ReSub.
Variable p : N → bool.
Variables (n : nat) (repl : list N).

Lemma flush_run_nil : flush_run n repl [] = [].
Proof. reflexivity. Qed.

(** Every character of the result comes from the replacement or from the
    subject. *)
Lemma re_sub_run_Forall (P : N → Prop) run s :
  Forall P repl → Forall P run → Forall P s →
  Forall P (re_sub_run p n repl run s).
Proof.
  intros Hrepl Hrun Hs. revert run Hrun.
  induction Hs as [|c s Hc Hs IH]; intros run Hrun; simpl.
  - unfold flush_run. destruct run; [constructor|]. by case_decide.
  - destruct (p c).
    + apply IH. apply Forall_app; split; [done | by constructor].
    + apply Forall_app; split.
      * unfold flush_run. destruct run; [constructor|]. by case_decide.
      * constructor; [done|]. apply IH. constructor.
Qed.

(** With a lower bound of at most one, no character of the class is left. *)
Lemma re_sub_run_class (P : N → Prop) run s :
  n ≤ 1 → Forall P repl → (∀ c, p c = false → P c) →
  Forall P (re_sub_run p n repl run s).
Proof.
  intros Hn Hrepl Hp. revert run.
  assert (Hflush : ∀ run, Forall P (flush_run n repl run)).
  { intros run. unfold flush_run. destruct run as [|x run]; [constructor|].
    case_decide as Hlen; [done|]. simpl in Hlen. lia. }
  induction s as [|c s IH]; intros run; simpl; [apply Hflush|].
  destruct (p c) eqn:Hc; [apply IH|].
  apply Forall_app; split; [apply Hflush|]. constructor; auto.
Qed.

(** A subject without a character of the class is left as it is. *)
Lemma re_sub_class_none s :
  Forall (λ c, p c = false) s → re_sub_class p n repl s = s.
Proof.
  unfold re_sub_class. induction 1 as [|c s Hc Hs IH]; simpl; [done|].
  by rewrite Hc, IH.
Qed.

End ReSub.


Lemma no_double_dash_cons c s :
  no_double_dash (c :: s) =
  negb (is_dash c && from_option is_dash false (head s)) && no_double_dash s.
Proof. destruct s; simpl; [by rewrite andb_false_r | done]. Qed.

Lemma no_double_dash_tail c s : no_double_dash (c :: s) = true → no_double_dash s = true.
Proof. rewrite no_double_dash_cons. by intros [_ ?]%andb_true_iff. Qed.

Lemma collapse_dashes_no_double run s :
  Forall (λ c, is_dash c = true) run →
  no_double_dash (re_sub_run is_dash 2 (py "-") run s) = true.
Proof.
  assert (Hflush : ∀ run, Forall (λ c, is_dash c = true) run →
            flush_run 2 (py "-") run = [] ∨ flush_run 2 (py "-") run = [45%N]).
  { intros [|x [|y r]] Hr; simpl; auto.
    right. apply Forall_cons in Hr as [Hx _].
    apply N.eqb_eq in Hx. by subst. }
  revert run. induction s as [|c s IH]; intros run Hrun; cbn [re_sub_run].
  - by destruct (Hflush run Hrun) as [-> | ->].
  - destruct (is_dash c) eqn:Hc.
    + apply IH. apply Forall_app; split; [done | by constructor].
    + assert (Hrest : no_double_dash (c :: re_sub_run is_dash 2 (py "-") [] s) = true).
      { rewrite no_double_dash_cons, Hc. simpl. by apply IH. }
      destruct (Hflush run Hrun) as [-> | ->]; [done|].
      change ([45%N] ++ ?t) with (45%N :: t).
      rewrite no_double_dash_cons. cbn [head from_option]. rewrite Hc, andb_false_r. done.
Qed.

Lemma collapse_dashes_fixed_run run s :
  length run ≤ 1 → Forall (λ c, is_dash c = true) run →
  no_double_dash (run ++ s) = true →
  re_sub_run is_dash 2 (py "-") run s = run ++ s.
Proof.
  assert (Hflush : ∀ run, length run ≤ 1 → flush_run 2 (py "-") run = run).
  { intros [|x [|y r]] Hlen; simpl in *; [done | done | lia]. }
  revert run. induction s as [|c s IH]; intros run Hlen Hrun Hdd; cbn [re_sub_run].
  - by rewrite app_nil_r, Hflush.
  - destruct (is_dash c) eqn:Hc.
    + destruct run as [|x [|y r]]; simpl in Hlen; [| |lia].
      * apply (IH [c]); [simpl; lia | by repeat constructor | done].
      * exfalso. apply Forall_cons in Hrun as [Hx _].
        simpl in Hdd. rewrite Hx, Hc in Hdd. done.
    + rewrite (IH []); [|simpl; lia|constructor|].
      * by rewrite Hflush.
      * cbn [app]. clear -Hdd. induction run as [|x run IHr]; cbn [app] in Hdd.
        -- by apply no_double_dash_tail in Hdd.
        -- apply IHr. by apply no_double_dash_tail in Hdd.
Qed.

Lemma collapse_dashes_fixed s :
  no_double_dash s = true → re_sub_class is_dash 2 (py "-") s = s.
Proof. intros. by apply (collapse_dashes_fixed_run []); [simpl; lia | constructor |]. Qed.

Lemma lstrip_no_double_dash p s :
  no_double_dash s = true → no_double_dash (lstrip p s) = true.
Proof.
  induction s as [|c s IH]; simpl; [done|]. intros Hdd.
  destruct (p c); [|done]. by apply IH, no_double_dash_tail with c.
Qed.

Lemma rstrip_no_double_dash p s :
  no_double_dash s = true → no_double_dash (rstrip p s) = true.
Proof.
  induction s as [|c s IH]; [done|].
  rewrite no_double_dash_cons. intros [Hc Hs]%andb_true_iff.
  specialize (IH Hs). pose proof (rstrip_head p s) as Hhead.
  cbn [rstrip]. destruct (rstrip p s) as [|x r].
  - by destruct (p c).
  - destruct Hhead as [? | Hhead]; [done|].
    by rewrite no_double_dash_cons, Hhead, Hc, IH.
Qed.

(* ===================================================================== *)
(** * [_slugify] *)
(* ===================================================================== *)

Ltac char_arith :=
  unfold slug_char, isspace, is_dash, ascii_lower, is_ascii in *;
  repeat match goal with
         | H : _ = true |- _ =>
             first [ apply orb_true_iff in H | apply andb_true_iff in H
                   | apply N.leb_le in H | apply N.eqb_eq in H ]
         | H : _ ∧ _ |- _ => destruct H
         | H : _ ∨ _ |- _ => destruct H
         end.

Lemma slug_char_ascii c : slug_char c = true → is_ascii c.
Proof. intros Hc. char_arith; lia. Qed.

Lemma slug_char_not_space c : slug_char c = true → isspace c = false.
Proof.
  intros Hc. apply not_true_is_false. intros Hs. char_arith; lia.
Qed.

Lemma slug_char_lower c : slug_char c = true → ascii_lower c = c.
Proof.
  intros Hc. unfold ascii_lower.
  destruct ((65 <=? c)%N && (c <=? 90)%N) eqn:Hu; [|done].
  exfalso. char_arith; lia.
Qed.

Lemma mem_dash c : mem_char (py "-") c = is_dash c.
Proof.
  unfold mem_char, is_dash. simpl.
  destruct (c =? 45)%N eqn:Hc.
  - apply N.eqb_eq in Hc as ->. apply bool_decide_eq_true. by left.
  - apply N.eqb_neq in Hc. apply bool_decide_eq_false.
    by intros ->%list_elem_of_singleton.
Qed.

Ltac all_chars :=
  repeat first [ apply List.Forall_nil | apply List.Forall_cons; [reflexivity|] ].

Section SlugifyFacts.
Context `{CaseMapping}.


Lemma slugify_body name :
  _slugify name = match slug_body name with [] => py "backup" | _ => slug_body name end.
Proof. reflexivity. Qed.

Lemma slug_body_class name : Forall (λ c, slug_char c = true) (slug_body name).
Proof.
  unfold slug_body, str_strip_chars. apply strip_with_Forall.
  unfold re_sub_class. apply re_sub_run_Forall; [all_chars | constructor |].
  apply re_sub_run_class; [lia | all_chars |].
  intros c Hc. by apply negb_false_iff.
Qed.

Lemma slug_body_no_double_dash name : no_double_dash (slug_body name) = true.
Proof.
  unfold slug_body, str_strip_chars, strip_with.
  apply rstrip_no_double_dash, lstrip_no_double_dash.
  apply collapse_dashes_no_double. constructor.
Qed.

(** A non-empty string of the class, without two dashes in a row and
    without a dash at either end, is its own slug. *)
Lemma slugify_fixed t :
  t ≠ [] →
  Forall (λ c, slug_char c = true) t →
  no_double_dash t = true →
  str_strip_chars (py "-") t = t →
  _slugify t = t.
Proof.
  intros Hne Hclass Hdd Hstrip. unfold _slugify.
  assert (Hsp : str_strip t = t).
  { apply strip_with_none. eapply Forall_impl; [exact Hclass|].
    apply slug_char_not_space. }
  rewrite Hsp, str_lower_ascii
    by (eapply Forall_impl; [exact Hclass | apply slug_char_ascii]).
  assert (Hlow : ascii_lower <$> t = t).
  { clear -Hclass. induction Hclass as [|c t Hc _ IH]; [done|].
    by rewrite fmap_cons, slug_char_lower, IH. }
  rewrite Hlow, (re_sub_class_none (λ c, negb (slug_char c))).
  2:{ eapply Forall_impl; [exact Hclass|]. intros c Hc. simpl. by rewrite Hc. }
  rewrite collapse_dashes_fixed, Hstrip by done.
  by destruct t.
Qed.

Lemma slugify_backup : _slugify (py "backup") = py "backup".
Proof. apply slugify_fixed; [done | all_chars | reflexivity | reflexivity]. Qed.

(** On ASCII input every case mapping gives the same slug. *)
Lemma slugify_ascii name :
  Forall is_ascii name → _slugify name = @_slugify ascii_case_mapping name.
Proof.
  intros Hname. unfold _slugify.
  by rewrite str_lower_ascii by (by apply strip_with_Forall).
Qed.

Lemma slugify_class name : Forall (λ c, slug_char c = true) (_slugify name).
Proof.
  rewrite slugify_body. pose proof (slug_body_class name) as Hclass.
  destruct (slug_body name); [all_chars | done].
Qed.

(** C6. For every string [s], [_slugify s] is not empty, each of its
    characters is in the class [[a-z0-9._-]], and [_slugify] is
    idempotent: [_slugify (_slugify s) = _slugify s]. *)
Theorem slugify_class_idempotent (s : list N) :
  _slugify s ≠ []
  ∧ Forall (λ c, slug_char c = true) (_slugify s)
  ∧ _slugify (_slugify s) = _slugify s.
Proof.
  rewrite slugify_body.
  pose proof (slug_body_class s) as Hclass.
  pose proof (slug_body_no_double_dash s) as Hdd.
  assert (Hstrip : str_strip_chars (py "-") (slug_body s) = slug_body s)
    by apply strip_with_idemp.
  destruct (slug_body s) as [|c b].
  - split; [done|]. split; [all_chars | apply slugify_backup].
  - split; [done|]. split; [done|]. by apply slugify_fixed.
Qed.

(** C9. [_slugify("")], [_slugify("   ")] and [_slugify("***")] are each
    the literal ["backup"]. *)
Theorem slugify_fallback :
  _slugify (py "") = py "backup"
  ∧ _slugify (py "   ") = py "backup"
  ∧ _slugify (py "***") = py "backup".
Proof.
  repeat split; rewrite slugify_ascii by all_chars; reflexivity.
Qed.

(** The slug has no character that [glob] reads as a wildcard. *)
Lemma slugify_no_wildcard name :
  Forall (λ c, c ≠ 42 ∧ c ≠ 63 ∧ c ≠ 91)%N (_slugify name).
Proof.
  eapply Forall_impl; [apply (slugify_class name)|].
  intros c Hc. simpl in Hc. repeat split; intros ->; done.
Qed.

End SlugifyFacts.

(* ===================================================================== *)
(** * [_parse_exclude_dirs] *)
(* ===================================================================== *)

(** C8. The exclusion parser applied to ["a, /b/, ,c/"] yields the list
    [["a"; "b"; "c"]], in that order, and the empty list for [None] and
    for the empty string. *)
Theorem parse_exclude_dirs_example :
  _parse_exclude_dirs (Some (py "a, /b/, ,c/")) = [py "a"; py "b"; py "c"]
  ∧ _parse_exclude_dirs None = []
  ∧ _parse_exclude_dirs (Some (py "")) = [].
Proof. repeat split; reflexivity. Qed.

(** No entry of the parsed list is empty. *)
Lemma parse_exclude_dirs_nonempty spec : Forall (λ e, e ≠ []) (_parse_exclude_dirs spec).
Proof.
  destruct spec as [[|c s]|]; simpl; try constructor.
  apply Forall_forall. intros e He. by apply list_elem_of_filter in He as [He _].
Qed.

(* ===================================================================== *)
(** * Paths and the file-system primitives *)
(* ===================================================================== *)

Lemma path_parent_child dir name : path_parent (path_child dir name) = dir.
Proof.
  destruct dir as [a ps]. unfold path_parent, path_child. simpl.
  by rewrite removelast_last.
Qed.

Lemma path_name_child dir name : path_name (path_child dir name) = name.
Proof. unfold path_name, path_child. simpl. apply last_last. Qed.

Lemma Qltb_lt a b : Qltb a b = true ↔ (a < b)%Q.
Proof.
  unfold Qltb. rewrite negb_true_iff, <- not_true_iff_false, Qle_bool_iff.
  split; [apply Qnot_le_lt | apply Qlt_not_le].
Qed.


Lemma path_stat_run p w :
  path_stat p w =
  (match lookup_file (disk w) p with
   | Some st => Ok st
   | None => Raise FileNotFoundError
   end, logged (SysStat p) w).
Proof.
  unfold path_stat, bind, log, modify, gets. simpl.
  by destruct (lookup_file (disk w) p).
Qed.

Lemma path_unlink_run missing_ok p w :
  path_unlink missing_ok p w =
  match lookup_file (disk w) p with
  | Some _ => (Ok tt, remove_file p (logged (SysUnlink p) w))
  | None => (if missing_ok then Ok tt else Raise FileNotFoundError,
             logged (SysUnlink p) w)
  end.
Proof.
  unfold path_unlink, bind, log, modify, gets. simpl.
  destruct (lookup_file (disk w) p); [done|]. by destruct missing_ok.
Qed.

Lemma path_glob_run dir pattern w :
  path_glob dir pattern w =
  (Ok match disk w !! dir with
      | Some d => path_child dir <$> glob_names pattern d
      | None => []
      end, logged (SysScandir dir) w).
Proof. reflexivity. Qed.

Lemma path_exists_run p w :
  path_exists p w =
  (Ok (bool_decide (is_Some (disk w !! p) ∨ is_Some (lookup_file (disk w) p))),
   logged (SysStat p) w).
Proof. reflexivity. Qed.

Lemma elem_of_glob_names (pattern : list N) (d : directory) (name : list N) :
  name ∈ glob_names pattern d ↔ is_Some (d !! name) ∧ fnmatch pattern name = true.
Proof.
  unfold glob_names. rewrite list_elem_of_filter, Is_true_true.
  rewrite list_elem_of_fmap. split.
  - intros [Hm ([n st] & -> & Hin)]. apply elem_of_map_to_list in Hin. eauto.
  - intros [[st Hst] Hm]. split; [done|]. exists (name, st).
    split; [done|]. by apply elem_of_map_to_list.
Qed.

(* ===================================================================== *)
(** * [prune_old_archives] *)
(* ===================================================================== *)


Section PruneArchives.
Context `{CaseMapping}.

Lemma prune_archives_loop_cons cutoff p ps deleted w :
  prune_archives_loop cutoff (p :: ps) deleted w =
  match lookup_file (disk w) p with
  | None => prune_archives_loop cutoff ps deleted (logged (SysStat p) w)
  | Some st =>
      if Qltb (st_mtime st) cutoff
      then prune_archives_loop cutoff ps (deleted + 1)
             (remove_file p (logged (SysUnlink p) (logged (SysStat p) w)))
      else prune_archives_loop cutoff ps deleted (logged (SysStat p) w)
  end.
Proof.
  cbn [prune_archives_loop]. unfold bind at 1, try. rewrite path_stat_run.
  destruct (lookup_file (disk w) p) as [st|] eqn:Hp; [|done].
  destruct (Qltb (st_mtime st) cutoff); [|done].
  unfold bind. rewrite path_unlink_run. simpl. by rewrite Hp.
Qed.

(** The loop over entries of [dest]: it returns, every other directory is
    as before, and in [dest] exactly the listed files older than [cutoff]
    are gone; the count grows by the number of files that went. *)
Lemma prune_archives_loop_spec dest cutoff ps :
  Forall (λ p, path_parent p = dest) ps →
  ∀ deleted w, ∃ n w',
    prune_archives_loop cutoff ps deleted w = (Ok n, w')
    ∧ clock w' = clock w
    ∧ (∀ dir, dir ≠ dest → disk w' !! dir = disk w !! dir)
    ∧ match disk w !! dest with
      | None => disk w' !! dest = None ∧ n = deleted
      | Some d =>
          ∃ d', disk w' !! dest = Some d'
            ∧ (∀ name, d' !! name =
                 pruned (λ x, bool_decide (x ∈ path_name <$> ps)) cutoff d name)
            ∧ n = (deleted + (Z.of_nat (size d) - Z.of_nat (size d')))%Z
      end.
Proof.
  induction 1 as [|p ps Hp Hps IH]; intros deleted w.
  - exists deleted, w. repeat split; [done..|].
    destruct (disk w !! dest) as [d|]; [|done].
    exists d. split; [done|]. split; [|lia].
    intros name. unfold pruned. by destruct (d !! name).
  - rewrite prune_archives_loop_cons. unfold lookup_file. rewrite Hp.
    destruct (disk w !! dest) as [d|] eqn:Hd; cbn [mbind option_bind].
    2:{ destruct (IH deleted (logged (SysStat p) w)) as (n & w' & -> & ? & ? & Hdest).
        simpl in Hdest. rewrite Hd in Hdest. by exists n, w'. }
    destruct (d !! path_name p) as [st|] eqn:Hst.
    2:{ destruct (IH deleted (logged (SysStat p) w)) as (n & w' & -> & ? & ? & Hdest).
        simpl in Hdest. rewrite Hd in Hdest. destruct Hdest as (d' & ? & Hd' & ?).
        exists n, w'. repeat split; [done..|].
        exists d'. repeat split; [done| |done].
        intros name. rewrite Hd'. unfold pruned.
        destruct (d !! name) as [st|] eqn:Hname; [|done].
        rewrite fmap_cons. rewrite (bool_decide_ext _ _ (elem_of_cons _ name _)).
        rewrite bool_decide_or.
        rewrite (bool_decide_eq_false_2 (name = path_name p)); [done|].
        intros ->. congruence. }
    destruct (Qltb (st_mtime st) cutoff) eqn:Hold.
    + set (w1 := remove_file p _).
      destruct (IH (deleted + 1)%Z w1) as (n & w' & -> & Hclock & Hother & Hdest).
      assert (Hw1 : disk w1 !! dest = Some (delete (path_name p) d)).
      { unfold w1, remove_file. simpl. by rewrite Hp, lookup_alter_eq, Hd. }
      rewrite Hw1 in Hdest. destruct Hdest as (d' & Hdisk & Hd' & Hn).
      exists n, w'. split; [done|]. split; [done|]. split.
      { intros dir Hdir. rewrite Hother by done.
        unfold w1, remove_file. simpl. by rewrite Hp, lookup_alter_ne. }
      exists d'. split; [done|]. split.
      * intros name. rewrite Hd'. unfold pruned.
        rewrite fmap_cons. rewrite (bool_decide_ext _ _ (elem_of_cons _ name _)).
        rewrite bool_decide_or.
        destruct (decide (name = path_name p)) as [-> | Hne].
        -- rewrite lookup_delete_eq, Hst, bool_decide_eq_true_2 by done.
           simpl. by rewrite Hold.
        -- rewrite lookup_delete_ne by done.
           by rewrite (bool_decide_eq_false_2 (name = path_name p)).
      * rewrite map_size_delete_Some in Hn by eauto.
        assert (size d ≠ 0).
        { intros Hz. apply map_size_empty_iff in Hz. subst d. by rewrite lookup_empty in Hst. }
        lia.
    + destruct (IH deleted (logged (SysStat p) w)) as (n & w' & -> & ? & ? & Hdest).
      simpl in Hdest. rewrite Hd in Hdest. destruct Hdest as (d' & ? & Hd' & ?).
      exists n, w'. repeat split; [done..|].
      exists d'. repeat split; [done| |done].
      intros name. rewrite Hd'. unfold pruned.
      destruct (d !! name) as [st'|] eqn:Hname; [|done].
      rewrite fmap_cons. rewrite (bool_decide_ext _ _ (elem_of_cons _ name _)).
      rewrite bool_decide_or.
      destruct (decide (name = path_name p)) as [-> | Hne].
      * assert (st' = st) as -> by congruence.
        by rewrite Hold, !andb_false_r.
      * by rewrite (bool_decide_eq_false_2 (name = path_name p)).
Qed.

End PruneArchives.

Section PruneArchivesSpec.
Context `{CaseMapping}.

Lemma sorted_parent dest (names : list (list N)) :
  Forall (λ p, path_parent p = dest) (sorted (path_child dest <$> names)).
Proof.
  unfold sorted. rewrite merge_sort_Permutation.
  apply Forall_fmap, Forall_forall. intros name _. apply path_parent_child.
Qed.

Lemma sorted_names dest (names : list (list N)) name :
  name ∈ path_name <$> sorted (path_child dest <$> names) ↔ name ∈ names.
Proof.
  unfold sorted. rewrite merge_sort_Permutation, <- list_fmap_compose.
  rewrite (list_fmap_ext (path_name ∘ path_child dest) id names), list_fmap_id; [done|].
  intros i x _. apply path_name_child.
Qed.

(** [prune_old_archives] with [keep_days >= 1]: it returns; no directory
    but [dest] changes; in [dest] a file is gone exactly if its name
    matches [*-{slug}.tar] and its modification time is before the
    cutoff, every other file is there with the [stat] it had, and no
    file is new; the number returned is the number of files deleted. *)
Theorem prune_old_archives_spec dest keep_days name_hint w :
  (1 ≤ keep_days)%Z →
  let cutoff := (clock w - inject_Z (keep_days * 86400))%Q in
  let pattern := py "*-" ++ _slugify name_hint ++ py ".tar" in
  ∃ n w',
    prune_old_archives dest keep_days name_hint w = (Ok n, w')
    ∧ (∀ dir, dir ≠ dest → disk w' !! dir = disk w !! dir)
    ∧ match disk w !! dest with
      | None => disk w' !! dest = None ∧ n = 0%Z
      | Some d =>
          ∃ d', disk w' !! dest = Some d'
            ∧ (∀ name, d' !! name = pruned (fnmatch pattern) cutoff d name)
            ∧ n = (Z.of_nat (size d) - Z.of_nat (size d'))%Z
      end.
Proof.
  intros Hdays cutoff pattern. unfold prune_old_archives.
  destruct (keep_days <? 1)%Z eqn:Hlt; [apply Z.ltb_lt in Hlt; lia|].
  unfold bind at 1, time_time, gets. unfold bind. rewrite path_glob_run.
  fold cutoff. change (prune_pattern name_hint) with pattern.
  set (w1 := logged (SysScandir dest) w).
  destruct (disk w !! dest) as [d|] eqn:Hd.
  - destruct (prune_archives_loop_spec dest cutoff _
                (sorted_parent dest (glob_names pattern d)) 0%Z w1)
      as (n & w' & Hrun & _ & Hother & Hdest).
    change (disk w1) with (disk w) in Hother, Hdest. rewrite Hd in Hdest.
    destruct Hdest as (d' & Hdisk & Hd' & Hn).
    exists n, w'. split; [done|]. split; [done|].
    exists d'. split; [done|]. split; [|lia].
    intros name. rewrite Hd'. unfold pruned.
    destruct (d !! name) as [st|] eqn:Hname; [|done].
    rewrite (bool_decide_ext _ _ (sorted_names dest _ name)).
    rewrite (bool_decide_ext _ _ (elem_of_glob_names pattern d name)).
    destruct (fnmatch pattern name).
    + rewrite bool_decide_eq_true_2; [done|]. rewrite Hname. eauto.
    + rewrite bool_decide_eq_false_2; [done|]. by intros [_ ?].
  - destruct (prune_archives_loop_spec dest cutoff [] (Forall_nil_2 _) 0%Z w1)
      as (n & w' & Hrun & _ & Hother & Hdest).
    change (disk w1) with (disk w) in Hother, Hdest. rewrite Hd in Hdest.
    exists n, w'. by rewrite <- Hrun.
Qed.

(** The same, file by file. *)
Corollary prune_old_archives_deletes_iff dest keep_days name_hint w d name st :
  (1 ≤ keep_days)%Z →
  disk w !! dest = Some d →
  d !! name = Some st →
  let cutoff := (clock w - inject_Z (keep_days * 86400))%Q in
  let pattern := py "*-" ++ _slugify name_hint ++ py ".tar" in
  ∃ n w' d',
    prune_old_archives dest keep_days name_hint w = (Ok n, w')
    ∧ disk w' !! dest = Some d'
    ∧ (d' !! name = None ↔ fnmatch pattern name = true ∧ (st_mtime st < cutoff)%Q)
    ∧ (d' !! name = None ∨ d' !! name = Some st).
Proof.
  intros Hdays Hd Hname cutoff pattern.
  destruct (prune_old_archives_spec dest keep_days name_hint w Hdays)
    as (n & w' & Hrun & _ & Hdest).
  rewrite Hd in Hdest. destruct Hdest as (d' & Hdisk & Hd' & _).
  exists n, w', d'. split; [done|]. split; [done|].
  rewrite Hd'. unfold pruned. rewrite Hname.
  fold pattern. fold cutoff. rewrite <- Qltb_lt.
  destruct (fnmatch pattern name), (Qltb (st_mtime st) cutoff); simpl;
    intuition congruence.
Qed.

(** With [keep_days < 1] nothing is computed: the result is 0 and the
    world, its trace of system calls included, is the one before. *)
Lemma prune_old_archives_disabled dest keep_days name_hint w :
  (keep_days < 1)%Z →
  prune_old_archives dest keep_days name_hint w = (Ok 0%Z, w).
Proof.
  intros Hdays. unfold prune_old_archives.
  by apply Z.ltb_lt in Hdays as ->.
Qed.

End PruneArchivesSpec.

(** ** What the pattern means *)

Lemma fnmatch_literal (lit name : list N) :
  Forall (λ c, c ≠ 42 ∧ c ≠ 63)%N lit →
  fnmatch lit name = true ↔ name = lit.
Proof.
  intros Hlit. revert name. induction Hlit as [|c lit [Hstar Hq] _ IH]; intros name.
  - simpl. by rewrite bool_decide_eq_true.
  - cbn [fnmatch].
    rewrite (proj2 (N.eqb_neq c 42)) by done.
    destruct name as [|x name]; [done|].
    rewrite (proj2 (N.eqb_neq c 63)) by done.
    rewrite orb_false_l, andb_true_iff, N.eqb_eq, IH.
    split; [by intros [-> ->] | by intros [= -> ->]].
Qed.

Lemma fnmatch_star (pat name : list N) :
  fnmatch (42%N :: pat) name = true ↔ ∃ pre post, name = pre ++ post ∧ fnmatch pat post = true.
Proof.
  cbn [fnmatch]. rewrite N.eqb_refl.
  induction name as [|x name IH].
  - rewrite orb_false_r. split.
    + intros Hm. by exists [], [].
    + intros (pre & post & Heq & Hm).
      symmetry in Heq. apply app_eq_nil in Heq as [-> ->]. done.
  - rewrite orb_true_iff, IH. split.
    + intros [Hm | (pre & post & -> & Hm)].
      * by exists [], (x :: name).
      * by exists (x :: pre), post.
    + intros ([|y pre] & post & Heq & Hm); simpl in Heq.
      * left. by subst.
      * right. injection Heq as -> ->. eauto.
Qed.

(** A name matches [*-{slug}.tar] exactly if it ends in [-{slug}.tar]. *)
Lemma prune_pattern_suffix `{CaseMapping} name_hint (name : list N) :
  fnmatch (prune_pattern name_hint) name = true
  ↔ (py "-" ++ _slugify name_hint ++ py ".tar") `suffix_of` name.
Proof.
  unfold prune_pattern. change (py "*-" ++ ?t) with (42%N :: py "-" ++ t).
  assert (Hlit : Forall (λ c, c ≠ 42 ∧ c ≠ 63)%N (py "-" ++ _slugify name_hint ++ py ".tar")).
  { apply Forall_app; split; [by repeat constructor|].
    apply Forall_app; split; [|by repeat constructor].
    eapply Forall_impl; [apply slugify_no_wildcard|]. by intros c (? & ? & _). }
  rewrite fnmatch_star. unfold suffix. split.
  - intros (pre & post & -> & Hm). apply fnmatch_literal in Hm as ->; [|done].
    by exists pre.
  - intros [pre ->]. eexists pre, _. split; [done|]. by apply fnmatch_literal.
Qed.

(* ===================================================================== *)
(** * [prune_old_backups] *)
(* ===================================================================== *)

Lemma isinstance_Exception e : isinstance e Exception = true.
Proof. by destruct e. Qed.

Lemma fromtimestamp_utc_tzinfo t tz d :
  fromtimestamp_utc t tz = Ok d → tzinfo d = tz.
Proof.
  unfold fromtimestamp_utc. case_bool_decide; [|done]. by intros [= <-].
Qed.

Lemma datetime_sub_tzinfo d td d' :
  datetime_sub d td = Ok d' → tzinfo d' = tzinfo d.
Proof.
  unfold datetime_sub. case_bool_decide; [|done]. by intros [= <-].
Qed.

(** A naive and an aware datetime do not compare. *)
Lemma datetime_lt_naive_aware a b :
  tzinfo a = None → tzinfo b ≠ None → datetime_lt a b = Raise TypeError.
Proof. unfold datetime_lt. intros ->. by destruct (tzinfo b). Qed.


Lemma backup_cutoff_aware t keep_days cutoff :
  backup_cutoff t keep_days = Ok cutoff → tzinfo cutoff ≠ None.
Proof.
  unfold backup_cutoff.
  destruct (fromtimestamp_utc t (Some utc)) as [now|] eqn:Hnow; [|done].
  destruct (timedelta_days keep_days) as [td|]; [|done].
  intros Hsub%datetime_sub_tzinfo.
  apply fromtimestamp_utc_tzinfo in Hnow. congruence.
Qed.

(** The [try] block never reaches [unlink]: against an aware cutoff it
    raises, [TypeError] at the comparison if not before, and all it did
    was one [stat]. *)
Lemma prune_backup_step_raises cutoff p deleted w :
  tzinfo cutoff ≠ None →
  ∃ e, prune_backup_step cutoff p deleted w = (Raise e, logged (SysStat p) w)
     ∧ (∀ st mtime, lookup_file (disk w) p = Some st →
          fromtimestamp_utc (st_mtime st) None = Ok mtime → e = TypeError).
Proof.
  intros Haware. unfold prune_backup_step, bind. rewrite path_stat_run.
  destruct (lookup_file (disk w) p) as [st|]; [|by eexists].
  destruct (fromtimestamp_utc (st_mtime st) None) as [mtime|e] eqn:Hm; simpl.
  - rewrite datetime_lt_naive_aware;
      [|by apply fromtimestamp_utc_tzinfo in Hm|done].
    simpl. exists TypeError. split; [done|]. by intros.
  - exists e. split; [done|]. intros st' mtime' [= <-]. by rewrite Hm.
Qed.

Lemma prune_backups_loop_spec cutoff ps :
  tzinfo cutoff ≠ None →
  ∀ deleted w,
    prune_backups_loop cutoff ps deleted w =
    (Ok deleted, mkWorld (disk w) (clock w) (trace w ++ (SysStat <$> ps))).
Proof.
  intros Haware. induction ps as [|p ps IH]; intros deleted w.
  - simpl. unfold ret. rewrite app_nil_r. by destruct w.
  - cbn [prune_backups_loop]. unfold bind at 1, try.
    destruct (prune_backup_step_raises cutoff p deleted w Haware) as (e & -> & _).
    rewrite isinstance_Exception, IH. simpl.
    by rewrite <- app_assoc.
Qed.

(** What [prune_old_backups] does, for every input: *)
Lemma prune_old_backups_run dest_dir keep_days w :
  let dest := Path_of_str dest_dir in
  let w1 := logged (SysStat dest) w in
  prune_old_backups dest_dir keep_days w =
  if bool_decide (is_Some (disk w !! dest) ∨ is_Some (lookup_file (disk w) dest))
  then
    match backup_cutoff (clock w) keep_days with
    | Raise e => (Raise e, w1)
    | Ok _ =>
        (Ok 0%Z,
         mkWorld (disk w) (clock w)
           (trace w ++ [SysStat dest; SysScandir dest]
            ++ (SysStat <$> match disk w !! dest with
                            | Some d =>
                                path_child dest
                                <$> glob_names (py "*-homeassistant.tar") d
                            | None => []
                            end)))
    end
  else (Ok 0%Z, w1).
Proof.
  intros dest w1. unfold prune_old_backups. fold dest.
  unfold bind at 1. rewrite path_exists_run. fold w1.
  case_bool_decide as Hex; [|done]. cbn [negb].
  unfold bind at 1, datetime_now, bind at 1, gets, lift.
  destruct (backup_cutoff (clock w) keep_days) as [cutoff|e] eqn:Hcut.
  - pose proof (backup_cutoff_aware _ _ _ Hcut) as Haware.
    unfold backup_cutoff in Hcut. cbn [clock w1 logged].
    destruct (fromtimestamp_utc (clock w) (Some utc)) as [now|]; [|done].
    unfold ret at 1. unfold bind at 1.
    destruct (timedelta_days keep_days) as [td|]; [|done].
    unfold ret at 1. unfold bind at 1. rewrite Hcut.
    unfold ret at 1. unfold bind. rewrite path_glob_run.
    rewrite prune_backups_loop_spec by done. subst w1.
    cbn [disk clock trace logged]. by rewrite <- !app_assoc.
  - unfold backup_cutoff in Hcut. cbn [clock w1 logged].
    destruct (fromtimestamp_utc (clock w) (Some utc)) as [now|]; [|by inversion Hcut].
    unfold ret at 1. unfold bind at 1.
    destruct (timedelta_days keep_days) as [td|]; [|by inversion Hcut].
    unfold ret at 1. unfold bind at 1. by rewrite Hcut.
Qed.

(** Whatever the input, [prune_old_backups] leaves the disk as it is and
    issues no [unlink]. *)
Lemma prune_old_backups_deletes_nothing dest_dir keep_days w :
  let w' := (prune_old_backups dest_dir keep_days w).2 in
  disk w' = disk w
  ∧ ∃ calls, trace w' = trace w ++ calls ∧ ∀ p, SysUnlink p ∉ calls.
Proof.
  rewrite prune_old_backups_run.
  case_bool_decide; [destruct (backup_cutoff _ _)|]; simpl;
    (split; [done|]); eexists; (split; [done|]); intros p.
  - rewrite !elem_of_cons, list_elem_of_fmap.
    by intros [? | [? | (? & ? & _)]].
  - rewrite list_elem_of_singleton. done.
  - rewrite list_elem_of_singleton. done.
Qed.

(** C10, as the code has it. For every existing destination, every set of
    files in it, and every [keep_days] for which the cutoff
    [datetime.now(timezone.utc) - timedelta(days=keep_days)] is a
    representable datetime, [prune_old_backups] returns 0 and deletes no
    file: each file matching [*-homeassistant.tar] is [stat]ed, the
    comparison of its naive modification time with the aware cutoff
    raises [TypeError], and the handler of the loop absorbs it. *)
Theorem prune_old_backups_never_deletes dest_dir keep_days w cutoff :
  let dest := Path_of_str dest_dir in
  is_Some (disk w !! dest) →
  backup_cutoff (clock w) keep_days = Ok cutoff →
  ∃ w',
    prune_old_backups dest_dir keep_days w = (Ok 0%Z, w')
    ∧ disk w' = disk w
    ∧ (∃ calls, trace w' = trace w ++ calls ∧ ∀ p, SysUnlink p ∉ calls)
    ∧ (∀ p deleted w0,
         ∃ e, prune_backup_step cutoff p deleted w0 = (Raise e, logged (SysStat p) w0)
            ∧ isinstance e Exception = true
            ∧ (∀ st mtime, lookup_file (disk w0) p = Some st →
                 fromtimestamp_utc (st_mtime st) None = Ok mtime → e = TypeError)).
Proof.
  intros dest Hex Hcut.
  pose proof (prune_old_backups_deletes_nothing dest_dir keep_days w) as Hnothing.
  rewrite prune_old_backups_run in *. fold dest in Hnothing |- *.
  rewrite bool_decide_eq_true_2 in * by auto. rewrite Hcut in *.
  eexists. split; [done|]. split; [done|]. split; [apply Hnothing|].
  intros p deleted w0.
  destruct (prune_backup_step_raises cutoff p deleted w0) as (e & ? & ?);
    [by eapply backup_cutoff_aware|].
  exists e. by rewrite isinstance_Exception.
Qed.

(* ===================================================================== *)
(** * The archive builders *)
(* ===================================================================== *)


Lemma fold_left_extend {A B} (f : B → list A) (l : list B) (acc : list A) :
  fold_left (λ cmd x, cmd ++ f x) l acc = acc ++ flat_map f l.
Proof.
  revert acc. induction l as [|x l IH]; intros acc; simpl.
  - by rewrite app_nil_r.
  - by rewrite IH, <- app_assoc.
Qed.

Lemma tar_command_layout target archive excludes :
  tar_command target archive excludes =
  [py "tar"] ++ flat_map anchored_excludes excludes
  ++ [py "-cf"; path_str archive; py "-C"; path_str target; py "."].
Proof.
  unfold tar_command. rewrite (fold_left_extend anchored_excludes).
  by rewrite <- app_assoc.
Qed.

Lemma ha_tar_command_layout ha_config_dir archive excludes :
  ha_tar_command ha_config_dir archive excludes =
  [py "tar"; py "-cf"; path_str archive] ++ flat_map plain_excludes excludes
  ++ [py "-C"; path_str ha_config_dir; py "."].
Proof.
  unfold ha_tar_command. rewrite (fold_left_extend plain_excludes).
  by rewrite <- app_assoc.
Qed.

Lemma anchored_excludes_in ex excludes :
  ex ∈ excludes →
  py "--exclude=./" ++ ex ∈ flat_map anchored_excludes excludes
  ∧ py "--exclude=./" ++ ex ++ py "/*" ∈ flat_map anchored_excludes excludes.
Proof.
  intros Hex. rewrite !list_elem_of_In, !in_flat_map.
  split; exists ex; (split; [by apply list_elem_of_In|]); simpl; auto.
Qed.

Section Builders.
Context `{CaseMapping} `{Subprocess}.


Lemma subprocess_run_check_run argv w :
  subprocess_run_check argv w =
  (if ((after_exec argv w).1 =? 0)%Z then Ok tt else Raise CalledProcessError,
   (after_exec argv w).2).
Proof.
  unfold subprocess_run_check, after_exec, bind, log, modify. simpl.
  destruct (spawn argv (disk w, clock w)) as [rc [d c]]. simpl.
  by destruct (rc =? 0)%Z.
Qed.

(** [create_tar], once the clock has been read: the tool runs once, with
    the argument vector of [tar_command]; the archive path is returned
    if the tool exits with 0 and the archive is there. *)
Lemma create_tar_run target dest exclude_dirs w now :
  fromtimestamp_utc (clock w) (Some utc) = Ok now →
  let archive :=
    joinpath dest (strftime_ymd now ++ py "-" ++ _slugify (path_name target) ++ py ".tar") in
  let argv := tar_command target archive (_parse_exclude_dirs exclude_dirs) in
  let w1 := (after_exec argv w).2 in
  create_tar target dest exclude_dirs w =
  if ((after_exec argv w).1 =? 0)%Z then
    (match lookup_file (disk w1) archive with
     | Some _ => Ok archive
     | None => Raise FileNotFoundError
     end, logged (SysStat archive) w1)
  else (Raise CalledProcessError, w1).
Proof.
  intros Hnow archive argv w1. unfold create_tar.
  unfold bind at 1, datetime_now, bind at 1, gets, lift. rewrite Hnow.
  unfold ret at 1. fold archive. fold argv.
  unfold bind at 1. rewrite subprocess_run_check_run. fold w1.
  destruct ((after_exec argv w).1 =? 0)%Z; [|done].
  unfold bind. rewrite path_stat_run.
  by destruct (lookup_file (disk w1) archive).
Qed.

Lemma backup_homeassistant_config_run ha_config_dir dest_dir include_db extra w now :
  is_Some (disk w !! ha_config_dir) →
  fromtimestamp_utc (clock w) (Some utc) = Ok now →
  let archive := joinpath dest_dir (strftime_ymd now ++ py "-homeassistant.tar") in
  let argv := ha_tar_command ha_config_dir archive (ha_excludes include_db extra) in
  let w0 := logged (SysStat ha_config_dir) w in
  let w1 := (after_exec argv w0).2 in
  backup_homeassistant_config ha_config_dir dest_dir include_db extra w =
  if ((after_exec argv w0).1 =? 0)%Z then
    (match lookup_file (disk w1) archive with
     | Some _ => Ok archive
     | None => Raise FileNotFoundError
     end, logged (SysStat archive) w1)
  else (Raise CalledProcessError, w1).
Proof.
  intros Hex Hnow archive argv w0 w1. unfold backup_homeassistant_config.
  unfold bind at 1. rewrite path_exists_run. fold w0.
  rewrite bool_decide_eq_true_2 by auto. cbn [negb].
  unfold bind at 1, datetime_now, bind at 1, gets, lift.
  change (clock w0) with (clock w). rewrite Hnow.
  unfold ret at 1. fold archive. fold argv.
  unfold bind at 1. rewrite subprocess_run_check_run. fold w1.
  destruct ((after_exec argv w0).1 =? 0)%Z; [|done].
  unfold bind. rewrite path_stat_run.
  by destruct (lookup_file (disk w1) archive).
Qed.

Lemma after_exec_trace argv w :
  trace (after_exec argv w).2 = trace w ++ [SysExec argv].
Proof.
  unfold after_exec. by destruct (spawn argv (disk w, clock w)) as [rc [d c]].
Qed.

(** C5, as the code has it. [create_tar] runs the tool once, as [tar],
    then for every entry [ex] of the parsed exclusions, in order,
    [--exclude=./ex] and [--exclude=./ex/*], then
    [-cf <archive> -C <target> .].  [backup_homeassistant_config] runs
    [tar -cf <archive>], then for every exclusion the two arguments
    [--exclude] and the entry as it is, then [-C <config dir> .]. *)
Theorem tar_invocations target dest exclude_dirs ha_config_dir include_db extra w now :
  fromtimestamp_utc (clock w) (Some utc) = Ok now →
  is_Some (disk w !! ha_config_dir) →
  (let archive :=
     joinpath dest (strftime_ymd now ++ py "-" ++ _slugify (path_name target) ++ py ".tar") in
   let excludes := _parse_exclude_dirs exclude_dirs in
   let argv :=
     [py "tar"] ++ flat_map anchored_excludes excludes
     ++ [py "-cf"; path_str archive; py "-C"; path_str target; py "."] in
   (∃ calls, trace (create_tar target dest exclude_dirs w).2
             = trace w ++ SysExec argv :: calls
           ∧ ∀ a, SysExec a ∉ calls)
   ∧ ∀ ex, ex ∈ excludes →
       py "--exclude=./" ++ ex ∈ flat_map anchored_excludes excludes
       ∧ py "--exclude=./" ++ ex ++ py "/*" ∈ flat_map anchored_excludes excludes)
  ∧ (let archive := joinpath dest (strftime_ymd now ++ py "-homeassistant.tar") in
     let argv :=
       [py "tar"; py "-cf"; path_str archive]
       ++ flat_map plain_excludes (ha_excludes include_db extra)
       ++ [py "-C"; path_str ha_config_dir; py "."] in
     ∃ calls, trace (backup_homeassistant_config ha_config_dir dest include_db extra w).2
              = trace w ++ SysStat ha_config_dir :: SysExec argv :: calls
            ∧ ∀ a, SysExec a ∉ calls).
Proof.
  intros Hnow Hex. split; [intros archive excludes argv; split|].
  - subst argv. rewrite <- tar_command_layout.
    rewrite (create_tar_run _ _ _ _ _ Hnow). fold archive.
    destruct (_ =? 0)%Z; cbn [snd logged trace]; rewrite after_exec_trace, <- ?app_assoc.
    + eexists [_]. split; [done|]. by intros a [=]%list_elem_of_singleton.
    + exists []. split; [done|]. intros a. apply not_elem_of_nil.
  - intros ex. apply anchored_excludes_in.
  - intros archive argv. subst argv. rewrite <- ha_tar_command_layout.
    rewrite (backup_homeassistant_config_run _ _ _ _ _ _ Hex Hnow). fold archive.
    destruct (_ =? 0)%Z; cbn [snd logged trace]; rewrite after_exec_trace;
      cbn [logged trace]; rewrite <- ?app_assoc.
    + eexists [_]. split; [done|]. by intros a [=]%list_elem_of_singleton.
    + exists []. split; [done|]. intros a. apply not_elem_of_nil.
Qed.

(** C3, as the code has it: the underscore is a character of the class
    and stays.  On the UTC date 2024-03-05 and for a target whose base
    name is [static_server], the tool is run with the archive
    [2024-03-05-static_server.tar] of the destination after [-cf], and
    that path is what [create_tar] returns when it returns. *)
Theorem create_tar_static_server target dest exclude_dirs w :
  path_name target = py "static_server" →
  utc_date (clock w) = Some (2024, 3, 5)%Z →
  let archive := path_child dest (py "2024-03-05-static_server.tar") in
  let argv := tar_command target archive (_parse_exclude_dirs exclude_dirs) in
  path_name archive = py "2024-03-05-static_server.tar"
  ∧ path_parent archive = dest
  ∧ (∃ calls, trace (create_tar target dest exclude_dirs w).2
              = trace w ++ SysExec argv :: calls)
  ∧ (∀ a, (create_tar target dest exclude_dirs w).1 = Ok a → a = archive).
Proof.
  intros Hname Hdate archive argv.
  split; [apply path_name_child|]. split; [apply path_parent_child|].
  unfold utc_date in Hdate.
  destruct (fromtimestamp_utc (clock w) (Some utc)) as [now|] eqn:Hnow; [|done].
  injection Hdate as Hdate.
  assert (Hfile : strftime_ymd now ++ py "-" ++ _slugify (path_name target) ++ py ".tar"
                  = py "2024-03-05-static_server.tar").
  { unfold strftime_ymd. rewrite Hdate, Hname, slugify_ascii by all_chars. reflexivity. }
  assert (Harchive : joinpath dest (py "2024-03-05-static_server.tar") = archive)
    by reflexivity.
  rewrite (create_tar_run _ _ _ _ _ Hnow), Hfile, Harchive. fold argv.
  destruct (_ =? 0)%Z; cbn [fst snd logged trace]; rewrite after_exec_trace, <- ?app_assoc.
  - split; [by eexists|]. by destruct (lookup_file _ archive); intros a [= <-].
  - split; [by eexists|]. done.
Qed.

End Builders.

(* ===================================================================== *)
(** * [fix_permissions] *)
(* ===================================================================== *)


Section PermissionFixupFacts.
Context {FS : Type} `{OwnershipOS FS}.

Lemma balanced_changed c : balanced c → balanced (bump_changed (bump_scanned c)).
Proof. unfold balanced. simpl. lia. Qed.
Lemma balanced_skipped c : balanced c → balanced (bump_skipped (bump_scanned c)).
Proof. unfold balanced. simpl. lia. Qed.
Lemma balanced_errors c : balanced c → balanced (bump_errors (bump_scanned c)).
Proof. unfold balanced. simpl. lia. Qed.

Lemma fix_loop_balanced uid gid dry_run include_dirs targets :
  ∀ c s c' s',
    balanced c →
    fix_loop uid gid dry_run include_dirs targets c s = (Ok c', s') →
    balanced c'.
Proof.
  induction targets as [|path rest IH]; intros c s c' s' Hc Hrun.
  - by injection Hrun as <- _.
  - cbn [fix_loop] in Hrun. unfold bind at 1, gets in Hrun.
    destruct (os_is_dir path (files s) && negb include_dirs).
    { eapply IH; [|exact Hrun]. by apply balanced_skipped. }
    unfold bind, try in Hrun.
    destruct ((if dry_run then ret tt else chown path uid gid) s) as [[[]|e] s1].
    { eapply IH; [|exact Hrun]. by apply balanced_changed. }
    destruct (isinstance e FileNotFoundError).
    { eapply IH; [|exact Hrun]. by apply balanced_skipped. }
    destruct (isinstance e PermissionError).
    { eapply IH; [|exact Hrun]. by apply balanced_errors. }
    destruct (isinstance e OSError); [|done].
    eapply IH; [|exact Hrun]. by apply balanced_errors.
Qed.

(** C4. For every completed run of [fix_permissions], whatever the root,
    the ids and the two flags, the counters of the summary satisfy
    [scanned = changed + skipped + errors], and none of the four is
    negative. *)
Theorem fix_permissions_accounting root uid gid dry_run include_dirs s r s' :
  fix_permissions root uid gid dry_run include_dirs s = (Ok r, s') →
  (scanned r = changed r + skipped r + errors r
   ∧ 0 ≤ scanned r ∧ 0 ≤ changed r ∧ 0 ≤ skipped r ∧ 0 ≤ errors r)%Z.
Proof.
  unfold fix_permissions. unfold bind at 1, gets.
  destruct (os_exists _ _); [|done]. cbn [negb].
  unfold bind at 1. unfold bind.
  destruct (fix_loop _ _ _ _ _ _ _) as [[c|e] s1] eqn:Hloop; [|done].
  intros [= <- _]. simpl.
  apply fix_loop_balanced in Hloop as (? & ? & ? & ?); [lia|].
  unfold balanced. simpl. lia.
Qed.

(** The run completes whenever the root exists and [chown] raises nothing
    but [OSError] and its subclasses. *)
Lemma fix_loop_completes uid gid dry_run include_dirs targets :
  (∀ p fs e, (os_chown p uid gid fs).1 = Raise e → isinstance e OSError = true) →
  ∀ c s, ∃ c' s', fix_loop uid gid dry_run include_dirs targets c s = (Ok c', s').
Proof.
  intros Hos. induction targets as [|path rest IH]; intros c s; [by eexists _, _|].
  cbn [fix_loop]. unfold bind at 1, gets.
  destruct (os_is_dir path (files s) && negb include_dirs); [apply IH|].
  unfold bind, try.
  destruct ((if dry_run then ret tt else chown path uid gid) s) as [[[]|e] s1] eqn:Hch;
    [apply IH|].
  assert (He : isinstance e OSError = true).
  { destruct dry_run; [done|]. unfold chown in Hch.
    specialize (Hos path (files s) e).
    destruct (os_chown path uid gid (files s)) as [r fs']. injection Hch as -> _.
    by apply Hos. }
  rewrite He. destruct (isinstance e FileNotFoundError); [apply IH|].
  destruct (isinstance e PermissionError); apply IH.
Qed.

Lemma fix_permissions_completes root uid gid dry_run include_dirs s :
  os_exists (Path_of_str root) (files s) = true →
  (∀ p fs e, (os_chown p uid gid fs).1 = Raise e → isinstance e OSError = true) →
  ∃ r s', fix_permissions root uid gid dry_run include_dirs s = (Ok r, s').
Proof.
  intros Hex Hos. unfold fix_permissions. unfold bind at 1, gets. rewrite Hex.
  cbn [negb]. unfold bind at 1. unfold bind.
  edestruct (fix_loop_completes uid gid dry_run include_dirs) as (c' & s' & ->); [done|].
  by eexists _, _.
Qed.

(** ** The dry run *)

Lemma fix_loop_dry_run uid gid include_dirs targets :
  ∀ c s,
    fix_loop uid gid true include_dirs targets c s =
    (Ok (mkCounters
           (n_scanned c + Z.of_nat (length targets))
           (n_changed c + Z.of_nat (length (eligible include_dirs (files s) targets)))
           (n_skipped c
            + (Z.of_nat (length targets)
               - Z.of_nat (length (eligible include_dirs (files s) targets))))
           (n_errors c)), s).
Proof.
  induction targets as [|path rest IH]; intros c s.
  - simpl. unfold ret. destruct c. simpl. do 2 f_equal. f_equal; lia.
  - cbn [fix_loop]. unfold bind at 1, gets. unfold eligible.
    rewrite filter_cons.
    destruct (os_is_dir path (files s) && negb include_dirs) eqn:Hd.
    + rewrite decide_False by (by intros []). rewrite IH. unfold eligible.
      cbn [bump_skipped bump_scanned n_scanned n_changed n_skipped n_errors length].
      do 2 f_equal. f_equal; lia.
    + rewrite decide_True by done. unfold bind, try, ret. rewrite IH. unfold eligible.
      cbn [bump_changed bump_scanned n_scanned n_changed n_skipped n_errors length].
      do 2 f_equal. f_equal; lia.
Qed.

(** C7. With [dry_run = True] and an existing root, the run completes
    and the state of the machine after it is the state before it: the
    store is the same and no [chown] was issued.  The [changed] counter is
    the number of eligible paths, the paths of the traversal that the
    directory filter lets through. *)
Theorem fix_permissions_dry_run root uid gid include_dirs s :
  os_exists (Path_of_str root) (files s) = true →
  ∃ r,
    fix_permissions root uid gid true include_dirs s = (Ok r, s)
    ∧ changed r
      = Z.of_nat (length (eligible include_dirs (files s)
                            (traversal root include_dirs (files s))))
    ∧ scanned r = Z.of_nat (length (traversal root include_dirs (files s)))
    ∧ errors r = 0%Z.
Proof.
  intros Hex. unfold fix_permissions. unfold bind at 1, gets. rewrite Hex.
  cbn [negb]. unfold bind at 1. unfold bind. rewrite fix_loop_dry_run.
  eexists. split; [reflexivity|]. simpl. fold (traversal root include_dirs (files s)).
  repeat split; lia.
Qed.

(** In a real run the eligible paths are the paths handed to [chown], in
    the order of the traversal, provided [chown] does not turn a
    directory into a file or a file into a directory. *)
Lemma fix_loop_chown_calls uid gid include_dirs targets :
  (∀ p q fs, os_is_dir q (os_chown p uid gid fs).2 = os_is_dir q fs) →
  ∀ c s c' s',
    fix_loop uid gid false include_dirs targets c s = (Ok c', s') →
    chown_calls s'
    = chown_calls s
      ++ ((λ p, (p, uid, gid)) <$> eligible include_dirs (files s) targets).
Proof.
  intros Hkind. induction targets as [|path rest IH]; intros c s c' s' Hrun.
  - injection Hrun as _ <-. by rewrite app_nil_r.
  - cbn [fix_loop] in Hrun. unfold bind at 1, gets in Hrun. unfold eligible.
    rewrite filter_cons.
    destruct (os_is_dir path (files s) && negb include_dirs) eqn:Hd.
    + rewrite decide_False by (by intros []). by eapply IH.
    + rewrite decide_True by done. unfold bind, try in Hrun.
      destruct (chown path uid gid s) as [r s1] eqn:Hch.
      assert (Hs1 : chown_calls s1 = chown_calls s ++ [(path, uid, gid)]
                    ∧ ∀ q, os_is_dir q (files s1) = os_is_dir q (files s)).
      { unfold chown in Hch. specialize (Hkind path).
        destruct (os_chown path uid gid (files s)) as [r' fs'] eqn:Hos.
        injection Hch as _ <-. split; [done|]. intros q. simpl.
        specialize (Hkind q (files s)). by rewrite Hos in Hkind. }
      destruct Hs1 as [Hcalls Hdir].
      assert (Hrest : chown_calls s' = chown_calls s1
                ++ ((λ p, (p, uid, gid)) <$> eligible include_dirs (files s1) rest)).
      { destruct r as [[]|e]; [by eapply IH|].
        destruct (isinstance e FileNotFoundError); [by eapply IH|].
        destruct (isinstance e PermissionError); [by eapply IH|].
        destruct (isinstance e OSError); [by eapply IH|done]. }
      rewrite Hrest, Hcalls, <- app_assoc. f_equal. rewrite fmap_cons. f_equal.
      f_equal. unfold eligible. apply list_filter_iff. intros q. by rewrite Hdir.
Qed.

Lemma fix_permissions_chown_calls root uid gid include_dirs s r s' :
  (∀ p q fs, os_is_dir q (os_chown p uid gid fs).2 = os_is_dir q fs) →
  fix_permissions root uid gid false include_dirs s = (Ok r, s') →
  chown_calls s'
  = chown_calls s
    ++ ((λ p, (p, uid, gid))
        <$> eligible include_dirs (files s) (traversal root include_dirs (files s))).
Proof.
  intros Hkind. unfold fix_permissions. unfold bind at 1, gets.
  destruct (os_exists _ _); [|done]. cbn [negb].
  unfold bind at 1. unfold bind.
  destruct (fix_loop _ _ _ _ _ _ _) as [[c|e] s1] eqn:Hloop; [|done].
  intros [= _ <-]. by eapply fix_loop_chown_calls.
Qed.

End PermissionFixupFacts.

(* ===================================================================== *)
(** * The flows on the example machine *)
(* ===================================================================== *)

Ltac conjuncts := repeat match goal with |- _ ∧ _ => split end.
Ltac by_evaluation := vm_compute; reflexivity.
Ltac by_decision :=
  match goal with |- ?P => apply (bool_decide_unpack P) end; vm_compute; exact I.

(** ** [prune_old_backups] against [prune_old_archives] *)

(** C1. The archive [2020-01-01-homeassistant.tar] matches
    [*-homeassistant.tar], and [homeassistant] is its own slug; in March
    2024 and with [keep_days = 10] it is older than the cutoff.
    [prune_old_archives] deletes it and returns 1.  [prune_old_backups]
    returns 0 and the archive is still there. *)
Theorem prune_old_backups_keeps_old_archive :
  let name := py "2020-01-01-homeassistant.tar" in
  let st := mkStat new_year_2020 10240 in
  let cutoff := (clock example_world - inject_Z (10 * 86400))%Q in
  let generic :=
    @prune_old_archives ascii_case_mapping backups_dir 10 (py "homeassistant")
      example_world in
  let ha := prune_old_backups (py "/mnt/backups") 10 example_world in
  lookup_file (disk example_world) (path_child backups_dir name) = Some st
  ∧ @prune_pattern ascii_case_mapping (py "homeassistant") = py "*-homeassistant.tar"
  ∧ fnmatch (py "*-homeassistant.tar") name = true
  ∧ (st_mtime st < cutoff)%Q
  ∧ generic.1 = Ok 1%Z
  ∧ lookup_file (disk generic.2) (path_child backups_dir name) = None
  ∧ ha.1 = Ok 0%Z
  ∧ lookup_file (disk ha.2) (path_child backups_dir name) = Some st.
Proof. cbv zeta. conjuncts; by_evaluation. Qed.

(** The example of the specification: with [keep_days = 10] and the name
    hint [foo], the archive of 2020 goes, the one of 2099 stays, and the
    archive of [bar] is not looked at. *)
Example prune_old_archives_foo :
  let run := @prune_old_archives ascii_case_mapping backups_dir 10 (py "foo") example_world in
  let file name := path_child backups_dir name in
  run.1 = Ok 1%Z
  ∧ lookup_file (disk run.2) (file (py "2020-01-01-foo.tar")) = None
  ∧ lookup_file (disk run.2) (file (py "2099-01-01-foo.tar")) = Some (mkStat new_year_2099 10240)
  ∧ lookup_file (disk run.2) (file (py "2020-01-01-bar.tar")) = Some (mkStat new_year_2020 10240)
  ∧ trace run.2
    = [SysScandir backups_dir;
       SysStat (file (py "2020-01-01-foo.tar")); SysUnlink (file (py "2020-01-01-foo.tar"));
       SysStat (file (py "2099-01-01-foo.tar"))].
Proof. cbv zeta. conjuncts; by_evaluation. Qed.

(** C2. With [keep_days = 0], [prune_old_archives] returns 0 and has
    issued no system call; [prune_old_backups] returns 0 after a [stat]
    of the destination, a listing of it and a [stat] of the archive that
    matches. *)
Theorem prune_old_backups_reads_disk_when_disabled :
  let file := path_child backups_dir (py "2020-01-01-homeassistant.tar") in
  let generic :=
    @prune_old_archives ascii_case_mapping backups_dir 0 (py "homeassistant")
      example_world in
  let ha := prune_old_backups (py "/mnt/backups") 0 example_world in
  generic.1 = Ok 0%Z
  ∧ trace generic.2 = []
  ∧ ha.1 = Ok 0%Z
  ∧ trace ha.2 = [SysStat backups_dir; SysScandir backups_dir; SysStat file].
Proof. cbv zeta. conjuncts; by_evaluation. Qed.

(** [prune_old_backups] has no guard on [keep_days]: its first step, for
    every input, is a [stat] of the destination. *)
Lemma prune_old_backups_always_stats dest_dir keep_days w :
  ∃ calls,
    trace (prune_old_backups dest_dir keep_days w).2
    = trace w ++ SysStat (Path_of_str dest_dir) :: calls.
Proof.
  rewrite prune_old_backups_run.
  case_bool_decide; [destruct (backup_cutoff _ _)|]; simpl; by eexists.
Qed.

(** A retention of a million days has no cutoff: the subtraction leaves
    the range of [datetime], and [prune_old_backups] raises. *)
Lemma prune_old_backups_overflow :
  is_Some (disk example_world !! Path_of_str (py "/mnt/backups"))
  ∧ (prune_old_backups (py "/mnt/backups") 1000000 example_world).1
    = Raise OverflowError.
Proof. split; [by_decision | by_evaluation]. Qed.

Lemma prune_old_backups_never_deletes_example :
  ∃ w',
    prune_old_backups (py "/mnt/backups") 10 example_world = (Ok 0%Z, w')
    ∧ disk w' = disk example_world.
Proof.
  destruct (prune_old_backups_never_deletes (py "/mnt/backups") 10 example_world
              (mkDatetime 738940 43200000000 (Some utc)))
    as (w' & Hrun & Hdisk & _); [by_decision | by_evaluation |].
  exists w'. exact (conj Hrun Hdisk).
Defined.

(** ** The archive builders *)

(** [create_tar] on [static_server], on 2024-03-05: the archive is
    [2024-03-05-static_server.tar], with the underscore. *)
Lemma create_tar_static_server_underscore :
  path_name static_server = py "static_server"
  ∧ utc_date (clock example_world) = Some (2024, 3, 5)%Z
  ∧ (@create_tar ascii_case_mapping toy_tar static_server backups_dir None example_world).1
    = Ok (path_child backups_dir (py "2024-03-05-static_server.tar"))
  ∧ path_name (path_child backups_dir (py "2024-03-05-static_server.tar"))
    ≠ py "2024-03-05-static-server.tar".
Proof. conjuncts; [by_evaluation.. | by vm_compute]. Qed.

Lemma create_tar_static_server_example :
  path_name static_server = py "static_server"
  ∧ utc_date (clock example_world) = Some (2024, 3, 5)%Z
  ∧ ∀ a,
      (@create_tar ascii_case_mapping toy_tar static_server backups_dir None
         example_world).1 = Ok a →
      a = path_child backups_dir (py "2024-03-05-static_server.tar").
Proof.
  split; [by_evaluation|]. split; [by_evaluation|].
  apply (@create_tar_static_server ascii_case_mapping toy_tar
           static_server backups_dir None example_world); by_evaluation.
Defined.

(** [backup_homeassistant_config] excludes [media], and neither
    [--exclude=./media] nor [--exclude=./media/*] is an argument of its
    [tar]; [-cf] comes first, and [--exclude] and [media] are two
    arguments. *)
Lemma ha_excludes_not_anchored :
  let run := @backup_homeassistant_config toy_tar ha_config backups_dir true None
               example_world in
  let argv :=
    [py "tar"; py "-cf"; py "/mnt/backups/2024-03-05-homeassistant.tar"]
    ++ flat_map plain_excludes ha_default_excludes
    ++ [py "-C"; py "/srv/config/homeassistant"; py "."] in
  (py "media" ∈ ha_excludes true None)
  ∧ trace run.2
    = [SysStat ha_config; SysExec argv;
       SysStat (path_child backups_dir (py "2024-03-05-homeassistant.tar"))]
  ∧ (py "--exclude=./media" ∉ argv)
  ∧ (py "--exclude=./media/*" ∉ argv).
Proof.
  cbv zeta. split; [by left|]. split; [by_evaluation|]. split; by_decision.
Qed.

Lemma tar_invocations_example :
  ∃ now,
    fromtimestamp_utc (clock example_world) (Some utc) = Ok now
    ∧ ∀ ex, ex ∈ _parse_exclude_dirs (Some (py "a, /b/, ,c/")) →
        py "--exclude=./" ++ ex
        ∈ flat_map anchored_excludes (_parse_exclude_dirs (Some (py "a, /b/, ,c/"))).
Proof.
  eexists. split; [by_evaluation|].
  intros ex Hex.
  eapply (@tar_invocations ascii_case_mapping toy_tar static_server backups_dir
            (Some (py "a, /b/, ,c/")) ha_config true None example_world);
    [by_evaluation | by_decision | exact Hex].
Defined.

(** ** [fix_permissions] *)

Lemma fix_permissions_accounting_example :
  let run :=
    fix_permissions (py "/srv") DEFAULT_UID DEFAULT_GID false true
      (mkOs example_store []) in
  ∃ r,
    run.1 = Ok r
    ∧ (scanned r, changed r, skipped r, errors r) = (4, 3, 0, 1)%Z
    ∧ (scanned r = changed r + skipped r + errors r)%Z.
Proof.
  intros run.
  assert (Hrun : run.1 = Ok (mkSummary (py "/srv") 1000 1000 false true 4 3 0 1))
    by by_evaluation.
  eexists. split; [exact Hrun|]. split; [reflexivity|].
  eapply (fix_permissions_accounting (py "/srv") DEFAULT_UID DEFAULT_GID false true
            (mkOs example_store []) _ run.2).
  rewrite <- Hrun. apply surjective_pairing.
Defined.

Lemma fix_permissions_dry_run_example :
  os_exists (Path_of_str (py "/srv")) example_store = true
  ∧ ∃ r,
      fix_permissions (py "/srv") DEFAULT_UID DEFAULT_GID true false (mkOs example_store [])
      = (Ok r, mkOs example_store [])
      ∧ changed r = 2%Z.
Proof.
  split; [by_evaluation|].
  destruct (fix_permissions_dry_run (py "/srv") DEFAULT_UID DEFAULT_GID false
              (mkOs example_store [])) as (r & Hrun & Hchanged & _); [by_evaluation|].
  exists r. split; [exact Hrun|]. rewrite Hchanged. by_evaluation.
Defined.

(** An id that does not fit is no [OSError]: the run stops there. *)
Example fix_permissions_bad_uid :
  (fix_permissions (py "/srv") (2 ^ 40) DEFAULT_GID false true (mkOs example_store [])).1
  = Raise OverflowError.
Proof. by_evaluation. Qed.

(* ===================================================================== *)
(** * Further properties: slugs and exclusion lists *)
(* ===================================================================== *)

Lemma rstrip_last p s : from_option p false (last (rstrip p s)) = false.
Proof.
  induction s as [|c s IH]; [done|]. cbn [rstrip].
  destruct (rstrip p s) as [|x r].
  - by destruct (p c) eqn:Hc.
  - by rewrite last_cons_cons.
Qed.

Lemma strip_with_edges p s :
  from_option p false (head (strip_with p s)) = false
  ∧ from_option p false (last (strip_with p s)) = false.
Proof.
  split; [|apply rstrip_last].
  pose proof (rstrip_head_kept p _ (lstrip_head_kept p s)) as Hk.
  unfold strip_with. by destruct (rstrip p (lstrip p s)).
Qed.

Lemma rstrip_fixed p s : from_option p false (last s) = false → rstrip p s = s.
Proof.
  induction s as [|c s IH]; [done|]. intros Hlast. cbn [rstrip].
  destruct s as [|x s'].
  - simpl in *. by rewrite Hlast.
  - rewrite last_cons_cons in Hlast. by rewrite (IH Hlast).
Qed.

Lemma strip_with_fixed p s :
  from_option p false (head s) = false →
  from_option p false (last s) = false →
  strip_with p s = s.
Proof.
  intros Hhead Hlast. unfold strip_with.
  rewrite lstrip_fixed by (by destruct s). by apply rstrip_fixed.
Qed.

Lemma mem_char_single x c : mem_char [x] c = true ↔ c = x.
Proof.
  unfold mem_char. by rewrite bool_decide_eq_true, list_elem_of_singleton.
Qed.

Lemma not_char_edge x (o : option N) :
  from_option (mem_char [x]) false o = false ↔ o ≠ Some x.
Proof.
  destruct o as [c|]; simpl; [|done].
  rewrite <- not_true_iff_false, mem_char_single.
  split; [by intros Hc [= ->] | by intros Hc ->].
Qed.

Lemma str_split_no_sep sep s : Forall (λ piece, sep ∉ piece) (str_split sep s).
Proof.
  induction s as [|c s IH]; simpl.
  - repeat constructor. apply not_elem_of_nil.
  - destruct (c =? sep)%N eqn:Hc.
    + constructor; [apply not_elem_of_nil | done].
    + apply N.eqb_neq in Hc. destruct (str_split sep s) as [|h t].
      * repeat constructor. by intros ->%list_elem_of_singleton.
      * apply Forall_cons in IH as [Hh Ht]. constructor; [|done].
        rewrite elem_of_cons. by intros [-> | ?].
Qed.

Section SlugShape.
Context `{CaseMapping}.

Lemma slug_body_is_slug name : slug_body name ≠ [] → is_slug (slug_body name).
Proof.
  intros Hne. split; [done|]. split; [apply slug_body_class|].
  split; [apply slug_body_no_double_dash|].
  destruct (strip_with_edges (mem_char (py "-"))
              (re_sub_class is_dash 2 (py "-")
                 (re_sub_class (λ c, negb (slug_char c)) 1 (py "-")
                    (str_lower (str_strip name))))) as [Hh Hl].
  by split; apply (not_char_edge 45).
Qed.

Lemma backup_is_slug : is_slug (py "backup").
Proof. split; [done|]. split; [all_chars|]. by repeat split. Qed.

(** X13. Whatever the name, its slug is not empty, is made of characters
    of the class [[a-z0-9._-]] only, has no two dashes in a row and has
    no dash at either end. *)
Theorem slugify_is_slug name : is_slug (_slugify name).
Proof.
  rewrite slugify_body. pose proof (slug_body_is_slug name) as Hs.
  destruct (slug_body name); [apply backup_is_slug | by apply Hs].
Qed.

(** X14. The strings that [_slugify] leaves as they are are exactly the
    slugs: a name is its own slug if and only if it is not empty, of the
    class, without two dashes in a row and without a dash at either
    end. *)
Theorem slugify_fixed_points t : _slugify t = t ↔ is_slug t.
Proof.
  split.
  - intros <-. rewrite slugify_body. pose proof (slug_body_is_slug t) as Hs.
    destruct (slug_body t); [apply backup_is_slug | by apply Hs].
  - intros (Hne & Hclass & Hdd & Hh & Hl). apply slugify_fixed; [done..|].
    by apply strip_with_fixed; apply (not_char_edge 45).
Qed.

End SlugShape.

(** X15. No entry of a parsed exclusion list is empty, holds a comma, or
    starts or ends with a slash. *)
Theorem parse_exclude_dirs_entries spec e :
  e ∈ _parse_exclude_dirs spec →
  e ≠ [] ∧ (44%N ∉ e) ∧ head e ≠ Some 47%N ∧ last e ≠ Some 47%N.
Proof.
  destruct spec as [[|c s]|]; cbn [_parse_exclude_dirs];
    try (by intros ?%elem_of_nil).
  intros [Hne (piece & -> & Hpiece)%list_elem_of_fmap]%list_elem_of_filter.
  split; [done|]. split.
  - pose proof (str_split_no_sep 44 (c :: s)) as Hsplit.
    rewrite Forall_forall in Hsplit. specialize (Hsplit _ Hpiece).
    assert (Hall : Forall (λ x, x ≠ 44%N) piece).
    { apply Forall_forall. by intros x Hx ->. }
    apply (strip_with_Forall isspace) in Hall.
    apply (strip_with_Forall (mem_char (py "/"))) in Hall.
    rewrite Forall_forall in Hall. intros Hin. by apply (Hall _ Hin).
  - destruct (strip_with_edges (mem_char (py "/")) (str_strip piece)) as [Hh Hl].
    by split; apply (not_char_edge 47).
Qed.

Lemma parse_exclude_dirs_entries_example :
  py "var/cache" ∈ _parse_exclude_dirs (Some (py " /var/cache/ ,, logs"))
  ∧ last (py "var/cache") ≠ Some 47%N.
Proof.
  assert (Hin : py "var/cache" ∈ _parse_exclude_dirs (Some (py " /var/cache/ ,, logs")))
    by (vm_compute; by left).
  split; [exact Hin|].
  apply (parse_exclude_dirs_entries _ _ Hin).
Defined.

(* ===================================================================== *)
(** * Further properties: [prune_old_archives] *)
(* ===================================================================== *)

Section PruneArchivesMore.
Context `{CaseMapping}.

(** The entries [prune_old_archives] looks at. *)
Lemma prune_old_archives_unfold dest keep_days name_hint w :
  (1 ≤ keep_days)%Z →
  prune_old_archives dest keep_days name_hint w =
  prune_archives_loop (clock w - inject_Z (keep_days * 86400))%Q
    (sorted match disk w !! dest with
            | Some d => path_child dest <$> glob_names (prune_pattern name_hint) d
            | None => []
            end)
    0%Z (logged (SysScandir dest) w).
Proof.
  intros Hdays. unfold prune_old_archives.
  destruct (keep_days <? 1)%Z eqn:Hlt; [apply Z.ltb_lt in Hlt; lia|].
  unfold bind at 1, time_time, gets. unfold bind. by rewrite path_glob_run.
Qed.

Lemma prune_archives_loop_trace cutoff ps :
  ∀ deleted w, ∃ calls,
    trace (prune_archives_loop cutoff ps deleted w).2 = trace w ++ calls
    ∧ Forall (λ c, ∃ p, p ∈ ps ∧ (c = SysStat p ∨ c = SysUnlink p)) calls
    ∧ clock (prune_archives_loop cutoff ps deleted w).2 = clock w.
Proof.
  induction ps as [|p ps IH]; intros deleted w.
  - exists []. by rewrite app_nil_r.
  - rewrite prune_archives_loop_cons.
    assert (Hweaken : ∀ calls,
              Forall (λ c, ∃ q, q ∈ ps ∧ (c = SysStat q ∨ c = SysUnlink q)) calls →
              Forall (λ c, ∃ q, q ∈ p :: ps ∧ (c = SysStat q ∨ c = SysUnlink q)) calls).
    { intros calls Hall. eapply Forall_impl; [exact Hall|]. intros c (q & Hq & Hc). exists q.
      split; [by right | done]. }
    assert (Hstat : ∃ q, q ∈ p :: ps ∧ (SysStat p = SysStat q ∨ SysStat p = SysUnlink q))
      by (exists p; split; [by left | by left]).
    assert (Hunlink : ∃ q, q ∈ p :: ps ∧ (SysUnlink p = SysStat q ∨ SysUnlink p = SysUnlink q))
      by (exists p; split; [by left | by right]).
    destruct (lookup_file (disk w) p) as [st|]; [destruct (Qltb _ _)|].
    + destruct (IH (deleted + 1)%Z
                  (remove_file p (logged (SysUnlink p) (logged (SysStat p) w))))
        as (calls & -> & Hcalls & ->).
      exists (SysStat p :: SysUnlink p :: calls). cbn [trace remove_file logged clock].
      rewrite <- !app_assoc. split; [done|]. split; [|done].
      repeat constructor; [done..|]. by apply Hweaken.
    + destruct (IH deleted (logged (SysStat p) w)) as (calls & -> & Hcalls & ->).
      exists (SysStat p :: calls). cbn [trace logged clock].
      rewrite <- !app_assoc. split; [done|]. split; [|done].
      constructor; [done|]. by apply Hweaken.
    + destruct (IH deleted (logged (SysStat p) w)) as (calls & -> & Hcalls & ->).
      exists (SysStat p :: calls). cbn [trace logged clock].
      rewrite <- !app_assoc. split; [done|]. split; [|done].
      constructor; [done|]. by apply Hweaken.
Qed.

Lemma prune_old_archives_clock dest keep_days name_hint w :
  clock (prune_old_archives dest keep_days name_hint w).2 = clock w.
Proof.
  destruct (decide (1 ≤ keep_days)%Z) as [Hdays|Hdays].
  - rewrite prune_old_archives_unfold by done.
    by destruct (prune_archives_loop_trace
                   (clock w - inject_Z (keep_days * 86400))%Q
                   (sorted match disk w !! dest with
                           | Some d => path_child dest <$> glob_names (prune_pattern name_hint) d
                           | None => []
                           end) 0%Z (logged (SysScandir dest) w)) as (? & _ & _ & ->).
  - by rewrite prune_old_archives_disabled by lia.
Qed.

(** Pruning what is pruned changes nothing. *)
Lemma pruned_pruned (sel : list N → bool) (cutoff : Q) (d d' : directory) :
  (∀ name, d' !! name = pruned sel cutoff d name) →
  ∀ name, pruned sel cutoff d' name = d' !! name.
Proof.
  intros Hd' name. unfold pruned at 1. rewrite Hd'. unfold pruned.
  destruct (d !! name) as [st|]; [|done].
  by destruct (sel name && Qltb (st_mtime st) cutoff) eqn:Hdel; [|rewrite Hdel].
Qed.










(** X6. A name matches the pattern of [prune_old_archives] exactly if it
    ends in [-{slug}.tar]: what stands before is not looked at. *)
Theorem prune_pattern_means_suffix name_hint (name : list N) :
  fnmatch (py "*-" ++ _slugify name_hint ++ py ".tar") name = true
  ↔ ∃ front, name = front ++ py "-" ++ _slugify name_hint ++ py ".tar".
Proof. apply prune_pattern_suffix. Qed.

(** X7. The pattern does not tell jobs apart when one slug ends in a
    dash and the other slug: the archive that [create_tar] names
    [{date}-{slug g}.tar] for a target [g] matches the pattern of the name
    hint [h] as soon as [-{slug h}] is the end of [-{slug g}]. *)
Theorem prune_pattern_collision h g (date : list N) :
  (py "-" ++ _slugify h) `suffix_of` (py "-" ++ _slugify g) →
  fnmatch (prune_pattern h) (date ++ py "-" ++ _slugify g ++ py ".tar") = true.
Proof.
  intros [front Hfront]. apply prune_pattern_suffix.
  exists (date ++ front).
  rewrite (app_assoc (py "-") (_slugify g)), Hfront.
  by rewrite <- !app_assoc.
Qed.

End PruneArchivesMore.


Lemma example_backups_at : disk example_world !! backups_dir = Some example_backups.
Proof. unfold example_world. cbn [disk]. apply lookup_insert_eq. Qed.






Lemma prune_pattern_collision_example :
  (py "-" ++ @_slugify ascii_case_mapping (py "app"))
    `suffix_of` (py "-" ++ @_slugify ascii_case_mapping (py "my-app"))
  ∧ fnmatch (@prune_pattern ascii_case_mapping (py "app"))
      (py "2024-03-05" ++ py "-" ++ @_slugify ascii_case_mapping (py "my-app") ++ py ".tar")
    = true.
Proof.
  assert (Hsuffix : (py "-" ++ @_slugify ascii_case_mapping (py "app"))
            `suffix_of` (py "-" ++ @_slugify ascii_case_mapping (py "my-app")))
    by (exists (py "-my"); vm_compute; reflexivity).
  split; [exact Hsuffix|].
  exact (@prune_pattern_collision ascii_case_mapping (py "app") (py "my-app")
           (py "2024-03-05") Hsuffix).
Defined.

(* ===================================================================== *)
(** * Further properties: the archive builders and [prune_old_backups] *)
(* ===================================================================== *)

Lemma str_split_whole sep s : Forall (λ c, c ≠ sep) s → str_split sep s = [s].
Proof.
  induction 1 as [|c s Hc _ IH]; [done|]. cbn [str_split].
  by rewrite (proj2 (N.eqb_neq c sep)), IH.
Qed.

(** A string without a slash that is neither empty nor [.] is one
    relative component. *)
Lemma Path_of_str_component s :
  Forall (λ c, c ≠ 47%N) s → s ≠ [] → s ≠ py "." →
  Path_of_str s = mkPath false [s].
Proof.
  intros Hs Hne Hdot. unfold Path_of_str. rewrite str_split_whole by done.
  rewrite filter_cons_True by done. f_equal.
  destruct Hs as [|c s Hc _]; [done|]. by apply N.eqb_neq.
Qed.

Lemma joinpath_component dest s :
  Forall (λ c, c ≠ 47%N) s → s ≠ [] → s ≠ py "." →
  joinpath dest s = path_child dest s.
Proof. intros. unfold joinpath. by rewrite Path_of_str_component. Qed.

Lemma digit_range d : (48 ≤ digit d ≤ 57)%N.
Proof.
  unfold digit. pose proof (Z.mod_pos_bound d 10 ltac:(lia)). lia.
Qed.

Lemma strftime_ymd_chars d :
  Forall (λ c, c ≠ 47%N) (strftime_ymd d) ∧ 10 ≤ length (strftime_ymd d).
Proof.
  unfold strftime_ymd. destruct (ord2ymd (ordinal d)) as [[y m] dd].
  split; [|simpl; lia].
  repeat first
    [ apply List.Forall_nil
    | apply List.Forall_cons;
      [ first [ pose proof (digit_range y); pose proof (digit_range (y / 10));
                pose proof (digit_range (y / 100)); pose proof (digit_range (y / 1000));
                pose proof (digit_range m); pose proof (digit_range (m / 10));
                pose proof (digit_range dd); pose proof (digit_range (dd / 10));
                lia
              | done ] |] ].
Qed.

Lemma slug_char_not_slash c : slug_char c = true → c ≠ 47%N.
Proof. by intros Hc ->. Qed.

Lemma fnmatch_homeassistant (date : list N) :
  fnmatch (py "*-homeassistant.tar") (date ++ py "-homeassistant.tar") = true.
Proof.
  change (py "*-homeassistant.tar") with (42%N :: py "-homeassistant.tar").
  apply fnmatch_star. exists date, (py "-homeassistant.tar"). split; [done|].
  apply fnmatch_literal; [|done]. by repeat constructor.
Qed.

Section BuildersMore.
Context `{CaseMapping} `{Subprocess}.

Lemma archive_file_name_component (date suffix : list N) :
  Forall (λ c, c ≠ 47%N) date → 10 ≤ length date →
  Forall (λ c, c ≠ 47%N) suffix →
  let file := date ++ py "-" ++ suffix ++ py ".tar" in
  Forall (λ c, c ≠ 47%N) file ∧ file ≠ [] ∧ file ≠ py ".".
Proof.
  intros Hdate Hlen Hsuffix file. split.
  - repeat (apply Forall_app; split); try done; by repeat constructor.
  - split; intros Heq; apply (f_equal length) in Heq;
      unfold file in Heq; rewrite !length_app in Heq; simpl in Heq; lia.
Qed.

(** The archive of [create_tar], when the clock reads [now]. *)
Lemma create_tar_archive target dest now :
  joinpath dest (strftime_ymd now ++ py "-" ++ _slugify (path_name target) ++ py ".tar")
  = path_child dest
      (strftime_ymd now ++ py "-" ++ _slugify (path_name target) ++ py ".tar").
Proof.
  destruct (strftime_ymd_chars now) as [Hchars Hlen].
  destruct (archive_file_name_component (strftime_ymd now)
              (_slugify (path_name target)) Hchars Hlen) as (? & ? & ?).
  { eapply Forall_impl; [apply slugify_class|]. apply slug_char_not_slash. }
  by apply joinpath_component.
Qed.

(** X8. [create_tar] runs [tar] once and stops there with
    [CalledProcessError] if the exit status is not 0; after an exit
    status of 0 it looks for the archive and raises [FileNotFoundError]
    if it is not there; it returns the path of the archive in the one
    case that is left.  Apart from what [tar] did, the disk is as it
    was. *)
Theorem create_tar_outcome target dest exclude_dirs w now :
  fromtimestamp_utc (clock w) (Some utc) = Ok now →
  let archive :=
    path_child dest
      (strftime_ymd now ++ py "-" ++ _slugify (path_name target) ++ py ".tar") in
  let argv := tar_command target archive (_parse_exclude_dirs exclude_dirs) in
  let status := (after_exec argv w).1 in
  let w1 := (after_exec argv w).2 in
  (status ≠ 0%Z →
   create_tar target dest exclude_dirs w = (Raise CalledProcessError, w1))
  ∧ (status = 0%Z → lookup_file (disk w1) archive = None →
     create_tar target dest exclude_dirs w
     = (Raise FileNotFoundError, logged (SysStat archive) w1))
  ∧ (status = 0%Z → is_Some (lookup_file (disk w1) archive) →
     create_tar target dest exclude_dirs w = (Ok archive, logged (SysStat archive) w1)).
Proof.
  intros Hnow archive argv status w1.
  rewrite (create_tar_run _ _ _ _ _ Hnow), create_tar_archive.
  fold archive argv status w1. repeat split.
  - intros Hrc. by rewrite (proj2 (Z.eqb_neq status 0)).
  - intros -> ->. done.
  - intros -> [st ->]. done.
Qed.

(** X9. Whatever the name of the target, an archive that [create_tar]
    returns lies in the destination itself, and its name matches the
    pattern under which [prune_old_archives] looks for the archives of
    that target. *)
Theorem create_tar_archive_in_scope target dest exclude_dirs w a :
  (create_tar target dest exclude_dirs w).1 = Ok a →
  path_parent a = dest
  ∧ fnmatch (prune_pattern (path_name target)) (path_name a) = true.
Proof.
  destruct (fromtimestamp_utc (clock w) (Some utc)) as [now|e] eqn:Hnow.
  - rewrite (create_tar_run _ _ _ _ _ Hnow), create_tar_archive.
    set (archive := path_child dest _).
    assert (Hscope : path_parent archive = dest
              ∧ fnmatch (prune_pattern (path_name target)) (path_name archive) = true).
    { unfold archive. rewrite path_parent_child, path_name_child. split; [done|].
      apply prune_pattern_suffix. by exists (strftime_ymd now). }
    destruct (_ =? 0)%Z; [|done]. cbn [fst].
    by destruct (lookup_file _ archive); intros [= <-].
  - unfold create_tar, bind at 1, datetime_now, bind at 1, gets, lift.
    by rewrite Hnow.
Qed.

(** What [backup_homeassistant_config] returns is the archive of the
    day. *)
Lemma backup_homeassistant_config_ok ha_config_dir dest_dir include_db extra w a :
  (backup_homeassistant_config ha_config_dir dest_dir include_db extra w).1 = Ok a →
  ∃ now, a = path_child dest_dir (strftime_ymd now ++ py "-homeassistant.tar").
Proof.
  unfold backup_homeassistant_config. unfold bind at 1. rewrite path_exists_run.
  destruct (bool_decide _); [|done]. cbn [negb].
  unfold bind at 1, datetime_now, bind at 1, gets, lift.
  destruct (fromtimestamp_utc _ _) as [now|e]; [|done].
  unfold ret at 1. unfold bind at 1. rewrite subprocess_run_check_run.
  destruct (_ =? 0)%Z; [|done]. unfold bind. rewrite path_stat_run.
  destruct (lookup_file _ _); [|done]. intros [= <-]. exists now.
  destruct (strftime_ymd_chars now) as [Hchars Hlen].
  apply joinpath_component.
  - apply Forall_app; split; [done | by repeat constructor].
  - intros Heq. apply (f_equal length) in Heq. rewrite length_app in Heq. simpl in Heq. lia.
  - intros Heq. apply (f_equal length) in Heq. rewrite length_app in Heq. simpl in Heq. lia.
Qed.

(** X10. [backup_homeassistant_config] does not run [tar] when the
    configuration directory is missing: it raises [FileNotFoundError]
    after one [stat].  When the directory is there it runs [tar] once,
    raises [CalledProcessError] on an exit status other than 0, and
    otherwise returns the archive if it exists and raises
    [FileNotFoundError] if it does not. *)
Theorem backup_homeassistant_config_outcome ha_config_dir dest_dir include_db extra w now :
  fromtimestamp_utc (clock w) (Some utc) = Ok now →
  let archive := path_child dest_dir (strftime_ymd now ++ py "-homeassistant.tar") in
  let argv := ha_tar_command ha_config_dir archive (ha_excludes include_db extra) in
  let w0 := logged (SysStat ha_config_dir) w in
  let status := (after_exec argv w0).1 in
  let w1 := (after_exec argv w0).2 in
  (disk w !! ha_config_dir = None → lookup_file (disk w) ha_config_dir = None →
   backup_homeassistant_config ha_config_dir dest_dir include_db extra w
   = (Raise FileNotFoundError, w0))
  ∧ (is_Some (disk w !! ha_config_dir) →
     (status ≠ 0%Z →
      backup_homeassistant_config ha_config_dir dest_dir include_db extra w
      = (Raise CalledProcessError, w1))
     ∧ (status = 0%Z → lookup_file (disk w1) archive = None →
        backup_homeassistant_config ha_config_dir dest_dir include_db extra w
        = (Raise FileNotFoundError, logged (SysStat archive) w1))
     ∧ (status = 0%Z → is_Some (lookup_file (disk w1) archive) →
        backup_homeassistant_config ha_config_dir dest_dir include_db extra w
        = (Ok archive, logged (SysStat archive) w1))).
Proof.
  intros Hnow archive argv w0 status w1.
  assert (Harchive : joinpath dest_dir (strftime_ymd now ++ py "-homeassistant.tar")
                     = archive).
  { destruct (strftime_ymd_chars now) as [Hchars Hlen]. apply joinpath_component.
    - apply Forall_app; split; [done | by repeat constructor].
    - intros Heq. apply (f_equal length) in Heq. rewrite length_app in Heq.
      simpl in Heq. lia.
    - intros Heq. apply (f_equal length) in Heq. rewrite length_app in Heq.
      simpl in Heq. lia. }
  split.
  - intros Hdir Hfile. unfold backup_homeassistant_config. unfold bind at 1.
    rewrite path_exists_run. rewrite bool_decide_eq_false_2; [done|].
    rewrite Hdir, Hfile. by intros [[? [=]] | [? [=]]].
  - intros Hex.
    rewrite (backup_homeassistant_config_run _ _ _ _ _ _ Hex Hnow), Harchive.
    fold argv w0 status w1. repeat split.
    + intros Hrc. by rewrite (proj2 (Z.eqb_neq status 0)).
    + intros -> ->. done.
    + intros -> [st ->]. done.
Qed.

(** X11. An archive that [backup_homeassistant_config] returns lies in
    the destination itself and matches [*-homeassistant.tar], the
    pattern of [prune_old_backups]. *)
Theorem ha_archive_in_scope ha_config_dir dest_dir include_db extra w a :
  (backup_homeassistant_config ha_config_dir dest_dir include_db extra w).1 = Ok a →
  path_parent a = dest_dir
  ∧ fnmatch (py "*-homeassistant.tar") (path_name a) = true.
Proof.
  intros (now & ->)%backup_homeassistant_config_ok.
  rewrite path_parent_child, path_name_child. split; [done|].
  apply fnmatch_homeassistant.
Qed.

End BuildersMore.

(** X12. [prune_old_backups] never changes the disk.  On a destination
    that does not exist it returns 0 after one [stat]; on one that
    exists it raises, before it lists anything, whenever the cutoff
    [datetime.now(timezone.utc) - timedelta(days=keep_days)] cannot be
    computed. *)
Theorem prune_old_backups_outcome dest_dir keep_days w :
  let dest := Path_of_str dest_dir in
  let run := prune_old_backups dest_dir keep_days w in
  disk run.2 = disk w
  ∧ (disk w !! dest = None → lookup_file (disk w) dest = None →
     run = (Ok 0%Z, logged (SysStat dest) w))
  ∧ (is_Some (disk w !! dest) →
     ∀ e, backup_cutoff (clock w) keep_days = Raise e →
          run = (Raise e, logged (SysStat dest) w)).
Proof.
  intros dest run. split; [apply prune_old_backups_deletes_nothing|].
  unfold run. rewrite prune_old_backups_run. fold dest. split.
  - intros Hdir Hfile. rewrite bool_decide_eq_false_2; [done|].
    rewrite Hdir, Hfile. by intros [[? [=]] | [? [=]]].
  - intros Hex e He. rewrite bool_decide_eq_true_2 by auto. by rewrite He.
Qed.

(** ** The builders on the example machine *)

Lemma create_tar_outcome_example :
  ∃ now a,
    fromtimestamp_utc (clock example_world) (Some utc) = Ok now
    ∧ (@create_tar ascii_case_mapping toy_tar static_server backups_dir None
         example_world).1 = Ok a
    ∧ path_name a = py "2024-03-05-static_server.tar".
Proof.
  assert (Hnow : fromtimestamp_utc (clock example_world) (Some utc)
                 = Ok (mkDatetime 738950 43200000000 (Some utc))) by by_evaluation.
  destruct (@create_tar_outcome ascii_case_mapping toy_tar static_server backups_dir None
              example_world _ Hnow) as (_ & _ & Hok).
  eexists _, _. split; [exact Hnow|].
  rewrite Hok; [split; [reflexivity | by_evaluation] | by_evaluation | by_decision].
Defined.

Lemma create_tar_archive_in_scope_example :
  let a := path_child backups_dir (py "2024-03-05-static_server.tar") in
  (@create_tar ascii_case_mapping toy_tar static_server backups_dir
     (Some (py "cache,tmp")) example_world).1 = Ok a
  ∧ path_parent a = backups_dir
  ∧ fnmatch (@prune_pattern ascii_case_mapping (py "static_server")) (path_name a) = true.
Proof.
  intros a.
  assert (Hrun : (@create_tar ascii_case_mapping toy_tar static_server backups_dir
                    (Some (py "cache,tmp")) example_world).1 = Ok a) by by_evaluation.
  split; [exact Hrun|].
  exact (@create_tar_archive_in_scope ascii_case_mapping toy_tar static_server backups_dir
           (Some (py "cache,tmp")) example_world a Hrun).
Defined.

Lemma backup_homeassistant_config_outcome_example :
  ∃ now a,
    fromtimestamp_utc (clock example_world) (Some utc) = Ok now
    ∧ (@backup_homeassistant_config toy_tar ha_config backups_dir false None
         example_world).1 = Ok a
    ∧ path_name a = py "2024-03-05-homeassistant.tar"
    ∧ (@backup_homeassistant_config toy_tar (Path_of_str (py "/nowhere")) backups_dir
         false None example_world).1 = Raise FileNotFoundError.
Proof.
  assert (Hnow : fromtimestamp_utc (clock example_world) (Some utc)
                 = Ok (mkDatetime 738950 43200000000 (Some utc))) by by_evaluation.
  destruct (@backup_homeassistant_config_outcome toy_tar ha_config backups_dir false None
              example_world _ Hnow) as (_ & Hthere).
  destruct Hthere as (_ & _ & Hok); [by_decision|].
  destruct (@backup_homeassistant_config_outcome toy_tar (Path_of_str (py "/nowhere"))
              backups_dir false None example_world _ Hnow) as (Hmissing & _).
  eexists _, _. split; [exact Hnow|].
  rewrite Hok; [|by_evaluation | by_decision].
  rewrite Hmissing; [|by_evaluation | by_evaluation].
  split; [reflexivity|]. split; [by_evaluation | reflexivity].
Defined.

Lemma ha_archive_in_scope_example :
  let a := path_child backups_dir (py "2024-03-05-homeassistant.tar") in
  (@backup_homeassistant_config toy_tar ha_config backups_dir true None
     example_world).1 = Ok a
  ∧ path_parent a = backups_dir
  ∧ fnmatch (py "*-homeassistant.tar") (path_name a) = true.
Proof.
  intros a.
  assert (Hrun : (@backup_homeassistant_config toy_tar ha_config backups_dir true None
                    example_world).1 = Ok a) by by_evaluation.
  split; [exact Hrun|].
  exact (@ha_archive_in_scope toy_tar ha_config backups_dir true None example_world a Hrun).
Defined.

(* ===================================================================== *)
(** * Further properties: [fix_permissions] *)
(* ===================================================================== *)

Section PermissionFixupMore.
Context {FS : Type} `{OwnershipOS FS}.

(** The loop stops only on an exception of [chown] that is no
    [OSError]. *)
Lemma fix_loop_raises uid gid dry_run include_dirs targets :
  ∀ c s e s',
    fix_loop uid gid dry_run include_dirs targets c s = (Raise e, s') →
    dry_run = false
    ∧ isinstance e OSError = false
    ∧ ∃ p fs, (os_chown p uid gid fs).1 = Raise e.
Proof.
  induction targets as [|path rest IH]; intros c s e s' Hrun; [done|].
  cbn [fix_loop] in Hrun. unfold bind at 1, gets in Hrun.
  destruct (os_is_dir path (files s) && negb include_dirs); [by eapply IH|].
  unfold bind, try in Hrun.
  destruct ((if dry_run then ret tt else chown path uid gid) s) as [[[]|e0] s1] eqn:Hch;
    [by eapply IH|].
  destruct (isinstance e0 FileNotFoundError); [by eapply IH|].
  destruct (isinstance e0 PermissionError); [by eapply IH|].
  destruct (isinstance e0 OSError) eqn:Hos; [by eapply IH|].
  injection Hrun as <- <-. destruct dry_run; [done|].
  split; [done|]. split; [done|]. exists path, (files s).
  unfold chown in Hch. destruct (os_chown path uid gid (files s)) as [r fs'].
  by injection Hch as -> _.
Qed.


(** Every path of the traversal is counted once, in one of the three
    counters. *)
Lemma fix_loop_counts uid gid dry_run include_dirs targets :
  ∀ c s c' s',
    fix_loop uid gid dry_run include_dirs targets c s = (Ok c', s') →
    (n_scanned c' = n_scanned c + Z.of_nat (length targets)
     ∧ n_changed c ≤ n_changed c' ∧ n_skipped c ≤ n_skipped c' ∧ n_errors c ≤ n_errors c'
     ∧ (n_changed c' - n_changed c) + (n_skipped c' - n_skipped c)
       + (n_errors c' - n_errors c) = Z.of_nat (length targets))%Z.
Proof.
  induction targets as [|path rest IH]; intros c s c' s' Hrun.
  - injection Hrun as <- _. simpl. lia.
  - cbn [fix_loop] in Hrun. unfold bind at 1, gets in Hrun.
    assert (Hstep : ∀ c1 s1,
              n_scanned c1 = (n_scanned c + 1)%Z →
              (n_changed c ≤ n_changed c1 ∧ n_skipped c ≤ n_skipped c1
               ∧ n_errors c ≤ n_errors c1
               ∧ (n_changed c1 - n_changed c) + (n_skipped c1 - n_skipped c)
                 + (n_errors c1 - n_errors c) = 1)%Z →
              fix_loop uid gid dry_run include_dirs rest c1 s1 = (Ok c', s') →
              (n_scanned c' = n_scanned c + Z.of_nat (length (path :: rest))
               ∧ n_changed c ≤ n_changed c' ∧ n_skipped c ≤ n_skipped c'
               ∧ n_errors c ≤ n_errors c'
               ∧ (n_changed c' - n_changed c) + (n_skipped c' - n_skipped c)
                 + (n_errors c' - n_errors c) = Z.of_nat (length (path :: rest)))%Z).
    { intros c1 s1 Hsc Hone Hrest. apply IH in Hrest. cbn [length]. lia. }
    destruct (os_is_dir path (files s) && negb include_dirs).
    { eapply Hstep; [| |exact Hrun]; simpl; lia. }
    unfold bind, try in Hrun.
    destruct ((if dry_run then ret tt else chown path uid gid) s) as [[[]|e] s1].
    { eapply Hstep; [| |exact Hrun]; simpl; lia. }
    destruct (isinstance e FileNotFoundError).
    { eapply Hstep; [| |exact Hrun]; simpl; lia. }
    destruct (isinstance e PermissionError).
    { eapply Hstep; [| |exact Hrun]; simpl; lia. }
    destruct (isinstance e OSError); [|done].
    eapply Hstep; [| |exact Hrun]; simpl; lia.
Qed.

(** X17. In every completed run, dry or real, [scanned] is the number of
    paths of the traversal: the root, if directories are included, and
    every path that [rglob] found below it before the first [chown]. *)
Theorem fix_permissions_scanned root uid gid dry_run include_dirs s r s' :
  fix_permissions root uid gid dry_run include_dirs s = (Ok r, s') →
  scanned r = Z.of_nat (length (traversal root include_dirs (files s))).
Proof.
  unfold fix_permissions. unfold bind at 1, gets.
  destruct (os_exists _ _); [|done]. cbn [negb].
  unfold bind at 1. unfold bind.
  destruct (fix_loop _ _ _ _ _ _ _) as [[c|e] s1] eqn:Hloop; [|done].
  intros [= <- _]. apply fix_loop_counts in Hloop as [Hscanned _].
  cbn [scanned]. rewrite Hscanned. unfold traversal. simpl. lia.
Qed.

(** A real run skips at least the directories that the filter holds
    back, as long as [chown] leaves directories directories and files
    files. *)
Lemma fix_loop_skips_filtered uid gid include_dirs targets :
  (∀ p q fs, os_is_dir q (os_chown p uid gid fs).2 = os_is_dir q fs) →
  ∀ c s c' s',
    fix_loop uid gid false include_dirs targets c s = (Ok c', s') →
    (Z.of_nat (length targets)
     - Z.of_nat (length (eligible include_dirs (files s) targets))
     ≤ n_skipped c' - n_skipped c)%Z.
Proof.
  intros Hkind. induction targets as [|path rest IH]; intros c s c' s' Hrun.
  - injection Hrun as <- _. simpl. lia.
  - cbn [fix_loop] in Hrun. unfold bind at 1, gets in Hrun. unfold eligible.
    rewrite filter_cons.
    destruct (os_is_dir path (files s) && negb include_dirs) eqn:Hd.
    + rewrite decide_False by (by intros []). apply IH in Hrun.
      unfold eligible in Hrun. cbn [length] in *. simpl in Hrun. lia.
    + rewrite decide_True by done. unfold bind, try in Hrun.
      destruct (chown path uid gid s) as [r s1] eqn:Hch.
      assert (Hdir : ∀ q, os_is_dir q (files s1) = os_is_dir q (files s)).
      { unfold chown in Hch. specialize (Hkind path).
        destruct (os_chown path uid gid (files s)) as [r' fs'] eqn:Hos.
        injection Hch as _ <-. intros q. simpl.
        specialize (Hkind q (files s)). by rewrite Hos in Hkind. }
      assert (Hsame : eligible include_dirs (files s1) rest
                      = eligible include_dirs (files s) rest).
      { unfold eligible. apply list_filter_iff. intros q. by rewrite Hdir. }
      assert (Hrest : ∃ c1, fix_loop uid gid false include_dirs rest c1 s1 = (Ok c', s')
                            ∧ (n_skipped c ≤ n_skipped c1)%Z).
      { destruct r as [[]|e]; [eexists; split; [exact Hrun | simpl; lia]|].
        destruct (isinstance e FileNotFoundError);
          [eexists; split; [exact Hrun | simpl; lia]|].
        destruct (isinstance e PermissionError);
          [eexists; split; [exact Hrun | simpl; lia]|].
        destruct (isinstance e OSError); [|done].
        eexists; split; [exact Hrun | simpl; lia]. }
      destruct Hrest as (c1 & Hrest & Hle). apply IH in Hrest.
      rewrite Hsame in Hrest. unfold eligible in Hrest. cbn [length]. lia.
Qed.

(** X18. The dry run bounds the real run.  When a real run completes,
    on a machine whose [chown] leaves directories directories and files
    files, the dry run on the machine before it completes too; both scan
    the same number of paths; the real run reports at most the changes
    the dry run announced, and what is missing is what it reports as
    errors or as skipped beyond the directories held back. *)
Theorem fix_permissions_dry_run_bounds root uid gid include_dirs s r s' :
  (∀ p q fs, os_is_dir q (os_chown p uid gid fs).2 = os_is_dir q fs) →
  fix_permissions root uid gid false include_dirs s = (Ok r, s') →
  ∃ dry,
    fix_permissions root uid gid true include_dirs s = (Ok dry, s)
    ∧ scanned r = scanned dry
    ∧ errors dry = 0%Z
    ∧ (skipped dry ≤ skipped r)%Z
    ∧ (changed r = changed dry - errors r - (skipped r - skipped dry))%Z.
Proof.
  intros Hkind Hreal.
  destruct (fix_permissions root uid gid true include_dirs s) as [rd sd] eqn:Hdry.
  unfold fix_permissions in Hreal, Hdry.
  unfold bind at 1, gets in Hreal. unfold bind at 1, gets in Hdry.
  destruct (os_exists _ _); [|done]. cbn [negb] in Hreal, Hdry.
  unfold bind in Hreal, Hdry. rewrite fix_loop_dry_run in Hdry.
  destruct (fix_loop _ _ _ _ _ _ _) as [[c|e] s1] eqn:Hloop; [|done].
  injection Hreal as <- _. injection Hdry as <- <-.
  eexists. split; [reflexivity|].
  pose proof (fix_loop_counts _ _ _ _ _ _ _ _ _ Hloop) as (Hsc & Hch & Hsk & Her & Hsum).
  pose proof (fix_loop_skips_filtered _ _ _ _ Hkind _ _ _ _ Hloop) as Hfilt.
  cbn [scanned changed skipped errors n_scanned n_changed n_skipped n_errors] in *.
  repeat match goal with |- _ ∧ _ => split end; lia.
Qed.

(** X19. In a completed real run, on a machine whose [chown] leaves
    directories directories and files files, [chown] is called on the
    eligible paths and on nothing else, once each, in the order of the
    traversal, with the given [uid] and [gid]. *)
Theorem fix_permissions_real_chown_calls root uid gid include_dirs s r s' :
  (∀ p q fs, os_is_dir q (os_chown p uid gid fs).2 = os_is_dir q fs) →
  fix_permissions root uid gid false include_dirs s = (Ok r, s') →
  chown_calls s'
  = chown_calls s
    ++ ((λ p, (p, uid, gid))
        <$> eligible include_dirs (files s) (traversal root include_dirs (files s))).
Proof. apply fix_permissions_chown_calls. Qed.

End PermissionFixupMore.

(** [chown] on the example machine changes owners and nothing else. *)
Lemma toy_chown_kind uid gid p q (fs : gmap Path inode) :
  os_is_dir q (os_chown p uid gid fs).2 = os_is_dir q fs.
Proof.
  cbn [os_chown os_is_dir toy_os]. unfold toy_chown.
  case_bool_decide; [|done]. destruct (fs !! p) as [i|] eqn:Hp; [|done].
  destruct (immutable i); [done|]. cbn [snd].
  destruct (decide (p = q)) as [<- | Hne].
  - by rewrite lookup_insert_eq, Hp.
  - by rewrite lookup_insert_ne.
Qed.

(** ** [fix_permissions] on the example machine *)

Lemma fix_permissions_scanned_example :
  let s := mkOs example_store [] in
  let run := fix_permissions (py "/srv") DEFAULT_UID DEFAULT_GID false false s in
  ∃ r,
    run.1 = Ok r
    ∧ scanned r = Z.of_nat (length (traversal (py "/srv") false (files s)))
    ∧ scanned r = 3%Z.
Proof.
  intros s run.
  assert (Hrun : run.1 = Ok (mkSummary (py "/srv") 1000 1000 false false 3 1 1 1))
    by by_evaluation.
  eexists. split; [exact Hrun|]. split; [|reflexivity].
  eapply (fix_permissions_scanned (py "/srv") DEFAULT_UID DEFAULT_GID false false s
            (mkSummary (py "/srv") 1000 1000 false false 3 1 1 1) run.2).
  rewrite <- Hrun. apply surjective_pairing.
Defined.

Lemma fix_permissions_dry_run_bounds_example :
  let s := mkOs example_store [] in
  ∃ r dry,
    (fix_permissions (py "/srv") DEFAULT_UID DEFAULT_GID false true s).1 = Ok r
    ∧ fix_permissions (py "/srv") DEFAULT_UID DEFAULT_GID true true s = (Ok dry, s)
    ∧ (changed r, errors r, skipped r) = (3, 1, 0)%Z
    ∧ (changed dry, errors dry, skipped dry) = (4, 0, 0)%Z.
Proof.
  intros s.
  set (run := fix_permissions (py "/srv") DEFAULT_UID DEFAULT_GID false true s).
  assert (Hrun : run.1 = Ok (mkSummary (py "/srv") 1000 1000 false true 4 3 0 1))
    by by_evaluation.
  destruct (fix_permissions_dry_run_bounds (py "/srv") DEFAULT_UID DEFAULT_GID true s
              (mkSummary (py "/srv") 1000 1000 false true 4 3 0 1) run.2
              (toy_chown_kind DEFAULT_UID DEFAULT_GID))
    as (dry & Hdry & _).
  { fold run. rewrite <- Hrun. apply surjective_pairing. }
  eexists _, dry. split; [exact Hrun|]. split; [exact Hdry|]. split; [reflexivity|].
  apply (f_equal fst) in Hdry. vm_compute in Hdry. by injection Hdry as <-.
Defined.

Lemma fix_permissions_real_chown_calls_example :
  let s := mkOs example_store [] in
  let run := fix_permissions (py "/srv") DEFAULT_UID DEFAULT_GID false false s in
  chown_calls run.2
  = [(Path_of_str (py "/srv/d/x"), 1000%Z, 1000%Z);
     (Path_of_str (py "/srv/a"), 1000%Z, 1000%Z)].
Proof.
  intros s run.
  assert (Hrun : run.1 = Ok (mkSummary (py "/srv") 1000 1000 false false 3 1 1 1))
    by by_evaluation.
  rewrite (fix_permissions_real_chown_calls (py "/srv") DEFAULT_UID DEFAULT_GID false s
             (mkSummary (py "/srv") 1000 1000 false false 3 1 1 1) run.2
             (toy_chown_kind DEFAULT_UID DEFAULT_GID)).
  - by_evaluation.
  - fold run. rewrite <- Hrun. apply surjective_pairing.
Defined.

(* ===================================================================== *)
(** * Further properties: the flows *)
(* ===================================================================== *)

Section FlowFacts.
Context `{CaseMapping} `{Subprocess} `{Provisioning}.

(** An archive that [create_tar] returns was on the disk when it
    returned. *)
Lemma create_tar_ok target dest exclude_dirs w a w' :
  create_tar target dest exclude_dirs w = (Ok a, w') →
  ∃ now,
    a = path_child dest
          (strftime_ymd now ++ py "-" ++ _slugify (path_name target) ++ py ".tar")
    ∧ is_Some (lookup_file (disk w') a).
Proof.
  destruct (fromtimestamp_utc (clock w) (Some utc)) as [now|e] eqn:Hnow.
  - rewrite (create_tar_run _ _ _ _ _ Hnow), create_tar_archive.
    destruct (_ =? 0)%Z; [|done].
    destruct (lookup_file _ _) as [st|] eqn:Hst; [|done].
    intros [= <- <-]. exists now. split; [done|]. exists st. exact Hst.
  - unfold create_tar, bind at 1, datetime_now, bind at 1, gets, lift.
    by rewrite Hnow.
Qed.

(** The same for [backup_homeassistant_config]. *)
Lemma backup_homeassistant_config_ok_on_disk ha_config_dir dest_dir include_db extra w a w' :
  backup_homeassistant_config ha_config_dir dest_dir include_db extra w = (Ok a, w') →
  path_parent a = dest_dir ∧ is_Some (lookup_file (disk w') a).
Proof.
  intros Hrun.
  destruct (backup_homeassistant_config_ok ha_config_dir dest_dir include_db extra w a)
    as (now & Ha); [by rewrite Hrun|].
  split; [by rewrite Ha, path_parent_child|].
  revert Hrun. unfold backup_homeassistant_config. unfold bind at 1.
  rewrite path_exists_run. destruct (bool_decide _); [|done]. cbn [negb].
  unfold bind at 1, datetime_now, bind at 1, gets, lift.
  destruct (fromtimestamp_utc _ _) as [now'|e]; [|done].
  unfold ret at 1. unfold bind at 1. rewrite subprocess_run_check_run.
  destruct (_ =? 0)%Z; [|done]. unfold bind. rewrite path_stat_run.
  destruct (lookup_file _ _) as [st|] eqn:Hst; [|done].
  intros [= <- <-]. exists st. exact Hst.
Qed.

(** [prune_old_archives] returns, whatever [keep_days] is. *)
Lemma prune_old_archives_returns dest keep_days name_hint w :
  ∃ n, (prune_old_archives dest keep_days name_hint w).1 = Ok n.
Proof.
  destruct (Z.lt_ge_cases keep_days 1) as [Hk | Hk].
  - exists 0%Z. by rewrite prune_old_archives_disabled.
  - destruct (prune_old_archives_spec dest keep_days name_hint w Hk) as (n & w' & Hrun & _).
    exists n. by rewrite Hrun.
Qed.



(** X22. The flow [backup_homeassistant], whatever [ensure_dest_dir]
    does.  An exception of [ensure_dest_dir] or of the builder ends the
    flow there.  Once the builder has returned an archive the flow
    deletes nothing: if the cutoff can be computed it returns the path of
    the archive and the disk is as the builder left it; if it cannot,
    the flow raises with the archive already written. *)
Theorem backup_homeassistant_outcome ha_config_dir dest_dir include_db keep_days w :
  let dest := Path_of_str dest_dir in
  let config := Path_of_str ha_config_dir in
  (∀ e w1, ensure_dest_dir dest w = (Raise e, w1) →
     backup_homeassistant ha_config_dir dest_dir include_db keep_days w = (Raise e, w1))
  ∧ (∀ w1, ensure_dest_dir dest w = (Ok tt, w1) →
       (∀ e w2, backup_homeassistant_config config dest include_db None w1 = (Raise e, w2) →
          backup_homeassistant ha_config_dir dest_dir include_db keep_days w
          = (Raise e, w2))
       ∧ (∀ a w2, backup_homeassistant_config config dest include_db None w1 = (Ok a, w2) →
            match backup_cutoff (clock w2) keep_days with
            | Ok _ =>
                ∃ w3, backup_homeassistant ha_config_dir dest_dir include_db keep_days w
                      = (Ok (path_str a), w3)
                      ∧ disk w3 = disk w2
            | Raise e =>
                backup_homeassistant ha_config_dir dest_dir include_db keep_days w
                = (Raise e, logged (SysStat dest) w2)
            end)).
Proof.
  intros dest config. split; [|intros w1 Hdir; split].
  - intros e w1 Hdir. unfold backup_homeassistant. fold dest. unfold bind at 1.
    by rewrite Hdir.
  - intros e w2 Htar. unfold backup_homeassistant. fold dest config. unfold bind at 1.
    rewrite Hdir. unfold bind at 1. by rewrite Htar.
  - intros a w2 Htar.
    assert (Hflow : backup_homeassistant ha_config_dir dest_dir include_db keep_days w
                    = match prune_old_backups dest_dir keep_days w2 with
                      | (Ok _, w3) => (Ok (path_str a), w3)
                      | (Raise e, w3) => (Raise e, w3)
                      end).
    { unfold backup_homeassistant. fold dest config. unfold bind at 1.
      rewrite Hdir. unfold bind at 1. rewrite Htar. reflexivity. }
    rewrite Hflow.
    destruct (backup_homeassistant_config_ok_on_disk _ _ _ _ _ _ _ Htar) as [Hparent [st Hst]].
    assert (Hex : is_Some (disk w2 !! dest)).
    { unfold lookup_file in Hst. rewrite Hparent in Hst.
      destruct (disk w2 !! dest); [by eexists | done]. }
    rewrite prune_old_backups_run. fold dest.
    rewrite bool_decide_eq_true_2 by auto.
    destruct (backup_cutoff (clock w2) keep_days); [|done].
    eexists. split; [reflexivity|]. reflexivity.
Qed.

End FlowFacts.

(** ** The flow on the example machine *)

